(** * List parameters of ra-core: resolution, parsing and batching

    A shallow embedding of
    [packages/ra-core/src/controller/list/useListParams.ts]:
    [parseObject], [parseQueryFromLocation], [hasCustomParams], [getQuery],
    [getNumberOrDefault] and the [changeParams] batcher of the
    [useListParams] hook, with the properties the specification states
    about them.

    Conventions of the embedding
    - a JavaScript value is a [JsVal]; numbers are the integers and [NaN]
      (the only numbers [parseInt] returns): fractions and infinities are
      left out, and an integer stands for the number JavaScript holds
      exactly, which it does below [2^53] in absolute value; strings are
      sequences of 8-bit code units;
    - a plain object used as a record of list parameters is a
      [gmap string JsVal]; a key that is missing reads as [undefined];
    - nested data ([filters], [displayedFilters], parsed JSON) keeps the
      order of its keys and is a [VObj] association list;
    - the built-ins the file calls but does not define ([JSON.parse],
      [JSON.stringify], [Number(s)] of a string [s]) are the
      fields of the class [Builtins]; [MiniJSON] gives one instance that can
      be run;
    - [queryReducer] and [SET_PAGE], imported from [./queryReducer], are the
      fields of the class [Reducer]. *)

From Stdlib Require Import ZArith Ascii String Decimal DecimalString.
From Stdlib Require DecimalZ DecimalNat.
From stdpp Require Import base tactics option list gmap strings.

Set Warnings "-register-all".
Open Scope string_scope.
Open Scope Z_scope.

(** ** JavaScript values *)

Module JS.

(** Numbers: an integer or [NaN]. *)
Inductive Num : Type :=
| NaN
| Int (z : Z).

Inductive JsVal : Type :=
| VUndefined
| VNull
| VBool (b : bool)
| VNum (n : Num)
| VStr (s : string)
| VArr (l : list JsVal)
| VObj (l : list (string * JsVal)).

(** [!!v]: the truthiness of a value. *)
Definition truthy (v : JsVal) : bool :=
  match v with
  | VUndefined | VNull => false
  | VBool b => b
  | VNum NaN => false
  | VNum (Int z) => negb (z =? 0)
  | VStr s => negb (String.eqb s "")
  | VArr _ | VObj _ => true
  end.

(** [v == null]: true of [undefined] and of [null] only. *)
Definition nullish (v : JsVal) : bool :=
  match v with
  | VUndefined | VNull => true
  | _ => false
  end.

(** [typeof v === 'string'] *)
Definition is_string (v : JsVal) : bool :=
  match v with
  | VStr _ => true
  | _ => false
  end.

(** [v === 1] *)
Definition is_one (v : JsVal) : bool :=
  match v with
  | VNum (Int 1) => true
  | _ => false
  end.

(** [o[k]] on a parameter object: a missing key reads as [undefined]. *)
Definition prop (o : gmap string JsVal) (k : string) : JsVal :=
  default VUndefined (o !! k).

(** [Object.keys(o).length > 0] on a parameter object. *)
Definition has_keys (o : gmap string JsVal) : bool :=
  bool_decide (0 < size o)%nat.

(** *** Decimal numerals *)

(** [String(n)] for a number of the model: an integer prints in decimal
    (as JavaScript prints the integers below [10^21]). *)
Definition Number_toString (n : Num) : string :=
  match n with
  | NaN => "NaN"
  | Int z => NilZero.string_of_int (Z.to_int z)
  end.

(** The white space [parseInt] skips (StrWhiteSpaceChar below 256). *)
Definition is_ws (c : ascii) : bool :=
  let n := nat_of_ascii c in
  ((9 <=? n) && (n <=? 13) || (n =? 32) || (n =? 160))%nat.

Fixpoint skip_ws (s : string) : string :=
  match s with
  | String c r => if is_ws c then skip_ws r else s
  | EmptyString => s
  end.

Definition digit_val (c : ascii) : option Z :=
  let n := nat_of_ascii c in
  if ((48 <=? n) && (n <=? 57))%nat then Some (Z.of_nat (n - 48)) else None.

(** The value of the longest prefix of decimal digits of [s], continuing
    from [acc]; [None] when no digit has been read. *)
Fixpoint digits (acc : option Z) (s : string) : option Z :=
  match s with
  | String c r =>
      match digit_val c with
      | Some d => digits (Some (10 * default 0 acc + d)) r
      | None => acc
      end
  | EmptyString => acc
  end.

(** [parseInt(s, 10)]: leading white space, an optional sign, then as many
    decimal digits as there are; [NaN] when there is none. The integer
    is the exact value of the digits; JavaScript rounds it to a double,
    which changes nothing below [2^53] in absolute value, and the
    properties that name the integer read are stated under that bound
    ([reads_exactly]). *)
Definition parseInt (s : string) : Num :=
  let s1 := skip_ws s in
  let '(neg, s2) :=
    match s1 with
    | String "-" r => (true, r)
    | String "+" r => (false, r)
    | _ => (false, s1)
    end in
  match digits None s2 with
  | Some n => Int (if neg then - n else n)
  | None => NaN
  end.

(** *** Property access on nested values *)

Fixpoint assoc (k : string) (l : list (string * JsVal)) : JsVal :=
  match l with
  | [] => VUndefined
  | (k', v) :: r => if String.eqb k k' then v else assoc k r
  end.

(** The canonical numeric string of an array index. *)
Definition index_key (i : nat) : string :=
  NilZero.string_of_uint (Nat.to_uint i).

Definition indices (n : nat) : list string :=
  map index_key (seq 0 n).

(** The index below [n] that the property name [k] denotes, if any. *)
Definition key_index (n : nat) (k : string) : option nat :=
  List.find (fun i => String.eqb k (index_key i)) (seq 0 n).

(** [Object.keys(v)]; [None] is the [TypeError] thrown on [undefined] and
    [null]. *)
Definition Object_keys (v : JsVal) : option (list string) :=
  match v with
  | VUndefined | VNull => None
  | VBool _ | VNum _ => Some []
  | VStr s => Some (indices (String.length s))
  | VArr l => Some (indices (List.length l))
  | VObj kvs => Some (map fst kvs)
  end.

(** [v[name]] for a name that [Object.keys(v)] returned. *)
Definition get (v : JsVal) (name : string) : JsVal :=
  match v with
  | VStr s =>
      match key_index (String.length s) name with
      | Some i =>
          match String.get i s with
          | Some c => VStr (String c EmptyString)
          | None => VUndefined
          end
      | None => VUndefined
      end
  | VArr l =>
      match key_index (List.length l) name with
      | Some i => nth i l VUndefined
      | None => VUndefined
      end
  | VObj kvs => assoc name kvs
  | _ => VUndefined
  end.

(** [v.length] of a truthy value. *)
Definition js_length (v : JsVal) : JsVal :=
  match v with
  | VStr s => VNum (Int (Z.of_nat (String.length s)))
  | VArr l => VNum (Int (Z.of_nat (List.length l)))
  | VObj kvs => assoc "length" kvs
  | _ => VUndefined
  end.

(** *** Built-ins taken as an interface *)

Class Builtins : Type := {
  (** [JSON.parse(s)]; [None] is the [SyntaxError] it throws. *)
  JSON_parse : string -> option JsVal;
  (** [JSON.stringify(v)]; [None] is the [undefined] it returns. *)
  JSON_stringify : JsVal -> option string;
  (** [Number(s)] for a string. *)
  StringToNumber : string -> Num;
  (** The empty text is not JSON. *)
  JSON_parse_empty : JSON_parse "" = None;
}.

Section Coercions.
Context {B : Builtins}.

(** [Number(o)] for an array or an object, which goes through
    [String(o)]: the empty array reads as [0], a one-element array as its
    element, anything else (a text with a comma, or [[object Object]]) as
    [NaN]. *)
Fixpoint ObjectToNumber (v : JsVal) : Num :=
  match v with
  | VArr [] => Int 0
  | VArr [x] =>
      match x with
      | VUndefined | VNull => Int 0
      | VBool _ => NaN
      | VNum n => n
      | VStr s => StringToNumber s
      | VArr _ => ObjectToNumber x
      | VObj _ => NaN
      end
  | _ => NaN
  end.

(** [Number(v)] *)
Definition ToNumber (v : JsVal) : Num :=
  match v with
  | VUndefined => NaN
  | VNull => Int 0
  | VBool b => Int (if b then 1 else 0)
  | VNum n => n
  | VStr s => StringToNumber s
  | VArr _ | VObj _ => ObjectToNumber v
  end.

(** The global [isNaN(v)]. *)
Definition isNaN (v : JsVal) : bool :=
  match ToNumber v with
  | NaN => true
  | Int _ => false
  end.

(** [v > 0] *)
Definition gt_zero (v : JsVal) : bool :=
  match ToNumber v with
  | NaN => false
  | Int z => 0 <? z
  end.

(** The value of [JSON.stringify(v)]: a string or [undefined]. *)
Definition json (v : JsVal) : JsVal :=
  match JSON_stringify v with
  | Some s => VStr s
  | None => VUndefined
  end.
End Coercions.

End JS.
Export JS.

(** ** Parsing the query of the location *)

Definition validQueryParams : list string :=
  ["page"; "perPage"; "sort"; "order"; "filters"; "displayedFilters";
   "filter"].

(** lodash's [pickBy(o, predicate)], the predicate called with value and
    key. *)
Definition pickBy (o : gmap string JsVal) (predicate : JsVal -> string -> bool)
  : gmap string JsVal :=
  filter (fun kv => predicate kv.2 kv.1 = true) o.

(** [{ field: name, operator: '=', value: v }] *)
Definition filterItem (name : string) (v : JsVal) : JsVal :=
  VObj [("field", VStr name); ("operator", VStr "="); ("value", v)].

(** [Object.keys(o).map(name => ({ field: name, operator: '=', value: o[name] }))];
    [None] when [Object.keys] throws. *)
Definition toFilterItems (o : JsVal) : option JsVal :=
  match Object_keys o with
  | Some names => Some (VArr (map (fun name => filterItem name (get o name)) names))
  | None => None
  end.

Section Parsing.
Context {B : Builtins}.

(** [parseObject(query, field)]; the object is updated in place in the
    source and returned here. *)
Definition parseObject (query : gmap string JsVal) (field : string)
  : gmap string JsVal :=
  if truthy (prop query field) && is_string (prop query field) then
    match prop query field with
    | VStr s =>
        match JSON_parse s with
        | Some v => <[field := v]> query
        | None => delete field query
        end
    | _ => query
    end
  else query.

(** [parseQueryFromLocation({ search })], from the object [parsed] that
    query-string's [parse(search)] returns. *)
Definition parseQueryFromLocation (parsed : gmap string JsVal)
  : gmap string JsVal :=
  let query :=
    pickBy parsed (fun v k => bool_decide (k ∈ validQueryParams)) in
  let query := parseObject query "filters" in
  let query := parseObject query "displayedFilters" in
  if negb (truthy (prop query "filters"))
     && truthy (prop query "filter")
     && is_string (prop query "filter")
  then
    let query :=
      match prop query "filter" with
      | VStr s =>
          match JSON_parse s with
          | Some filterObject =>
              match toFilterItems filterObject with
              | Some items => <["filters" := items]> query
              | None => query
              end
          | None => query
          end
      | _ => query
      end in
    delete "filter" query
  else query.

(** The query of [parseQueryFromLocation] after its two calls of
    [parseObject]. *)
Definition parsed_objects (parsed : gmap string JsVal) : gmap string JsVal :=
  parseObject
    (parseObject
       (pickBy parsed (fun _ k => bool_decide (k ∈ validQueryParams)))
       "filters")
    "displayedFilters".
End Parsing.

(** ** Resolving the parameters *)

Record SortPayload : Type := { field : string; order : string }.

Section Resolver.
Context {B : Builtins}.

(** The truthiness of [hasCustomParams(params)]; [None] is a missing
    [params]. *)
Definition hasCustomParams (params : option (gmap string JsVal)) : bool :=
  match params with
  | None => false
  | Some params =>
      (truthy (prop params "filters")
         && gt_zero (js_length (prop params "filters")))
      || negb (nullish (prop params "order"))
      || negb (is_one (prop params "page"))
      || negb (nullish (prop params "perPage"))
      || negb (nullish (prop params "sort"))
  end.

Definition getNumberOrDefault (possibleNumber : JsVal) (defaultValue : Num)
  : JsVal :=
  let parsedNumber :=
    match possibleNumber with
    | VStr s => VNum (parseInt s)
    | _ => possibleNumber
    end in
  if isNaN parsedNumber then VNum defaultValue else parsedNumber.

(** [{ ...params }] *)
Definition spread (params : option (gmap string JsVal)) : gmap string JsVal :=
  default ∅ params.

(** The object [getQuery] starts from (its first statement). *)
Definition getQuery_base (queryFromLocation : gmap string JsVal)
    (params : option (gmap string JsVal)) (filterDefaultValues : JsVal)
  : gmap string JsVal :=
  if has_keys queryFromLocation then queryFromLocation
  else if hasCustomParams params then spread params
  else {[ "filters" :=
            if truthy filterDefaultValues then filterDefaultValues
            else VArr [] ]}.

(** The three [if] statements of [getQuery]. *)
Definition getQuery_defaults (query : gmap string JsVal) (sort : SortPayload)
    (perPage : Num) : gmap string JsVal :=
  let query :=
    if negb (truthy (prop query "sort"))
    then <["order" := VStr (order sort)]> (<["sort" := VStr (field sort)]> query)
    else query in
  let query :=
    if nullish (prop query "perPage")
    then <["perPage" := VNum perPage]> query
    else query in
  if nullish (prop query "page")
  then <["page" := VNum (Int 1)]> query
  else query.

Definition getQuery (queryFromLocation : gmap string JsVal)
    (params : option (gmap string JsVal)) (filterDefaultValues : JsVal)
    (sort : SortPayload) (perPage : Num) : gmap string JsVal :=
  let query := getQuery_base queryFromLocation params filterDefaultValues in
  let query := getQuery_defaults query sort perPage in
  <["perPage" := getNumberOrDefault (prop query "perPage") (Int 10)]>
    (<["page" := getNumberOrDefault (prop query "page") (Int 1)]> query).
End Resolver.

(** ** The hook: resolved query and batched changes *)

Record Action : Type := { type : string; payload : JsVal }.

(** What [./queryReducer] exports to this file. *)
Class Reducer : Type := {
  queryReducer : gmap string JsVal -> Action -> gmap string JsVal;
  SET_PAGE : string;
  SET_PER_PAGE : string;
}.

(** The calls the hook makes on its collaborators: [setLocalParams(p)]
    and [navigate({ search: `?${stringify(o)}` }, { state: { _scrollToTop } })],
    the search kept as the object [o] handed to query-string's [stringify];
    [Uncaught] is a timer callback that threw. *)
Inductive Effect : Type :=
| SetLocalParams (p : option (gmap string JsVal))
| Navigate (search : gmap string JsVal) (_scrollToTop : bool)
| Uncaught.

(** The mutable state [changeParams] works on. *)
Record Batcher : Type := {
  (** [tempParams.current] *)
  tempParams : option (gmap string JsVal);
  (** the callbacks given to [setTimeout(.., 0)] that have not run yet,
      each with the [action] it closed over *)
  timers : list Action;
  (** the calls made so far, oldest first *)
  effects : list Effect;
}.

Record ListParamsOptions : Type := {
  opt_filterDefaultValues : JsVal;
  opt_sort : SortPayload;
  opt_perPage : Num;
  disableSyncWithLocation : bool;
}.

Section Hook.
Context {B : Builtins} {Rd : Reducer}.

(** The [query] of a render ([getQuery] updates the object it starts from
    in place; nothing here reads that object again): [parsed] is
    [parse(location.search)],
    [stored] the parameters read from the store or from the local
    state. *)
Definition useListParams_query (o : ListParamsOptions)
    (parsed : gmap string JsVal) (stored : option (gmap string JsVal))
  : gmap string JsVal :=
  let queryFromLocation :=
    if disableSyncWithLocation o then ∅ else parseQueryFromLocation parsed in
  let fdv := opt_filterDefaultValues o in
  getQuery queryFromLocation stored
    (if truthy fdv then
       match fdv with
       | VArr _ => fdv
       | _ => default VUndefined (toFilterItems fdv)
       end
     else fdv)
    (opt_sort o) (opt_perPage o).

(** The object given to [stringify] when the batch is flushed. *)
Definition searchParams (p : gmap string JsVal) : gmap string JsVal :=
  <["displayedFilters" := json (prop p "displayedFilters")]>
    (<["filters" := json (prop p "filters")]> p).

(** The callback [changeParams] gives to [setTimeout], closed over
    [action]. *)
Definition flush (disableSync : bool) (action : Action) (b : Batcher)
  : Batcher :=
  if disableSync then
    {| tempParams := None; timers := timers b;
       effects := effects b ++ [SetLocalParams (tempParams b)] |}
  else
    match tempParams b with
    | Some p =>
        {| tempParams := None; timers := timers b;
           effects := effects b ++
             [Navigate (searchParams p)
                (String.eqb (type action) SET_PAGE)] |}
    | None =>
        {| tempParams := tempParams b; timers := timers b;
           effects := effects b ++ [Uncaught] |}
    end.

Definition changeParams (query : gmap string JsVal) (action : Action)
    (b : Batcher) : Batcher :=
  match tempParams b with
  | None =>
      {| tempParams := Some (queryReducer query action);
         timers := timers b ++ [action];
         effects := effects b |}
  | Some temp =>
      {| tempParams := Some (queryReducer temp action);
         timers := timers b;
         effects := effects b |}
  end.

Definition setPage (newPage : JsVal) : Action :=
  {| type := SET_PAGE; payload := newPage |}.

Definition setPerPage (newPerPage : JsVal) : Action :=
  {| type := SET_PER_PAGE; payload := newPerPage |}.

(** The calls of one synchronous run, in order; they come from one
    render and share its [query]. *)
Definition submit (query : gmap string JsVal) (actions : list Action)
    (b : Batcher) : Batcher :=
  foldl (fun b action => changeParams query action b) b actions.

(** The event loop after the synchronous run: the pending timer
    callbacks run, oldest first. *)
Definition run_timers (disableSync : bool) (b : Batcher) : Batcher :=
  foldl (fun b action => flush disableSync action b)
    {| tempParams := tempParams b; timers := []; effects := effects b |}
    (timers b).

(** One tick: the calls, then the timers. *)
Definition tick (disableSync : bool) (query : gmap string JsVal)
    (actions : list Action) (b : Batcher) : Batcher :=
  run_timers disableSync (submit query actions b).

Definition idle (es : list Effect) : Batcher :=
  {| tempParams := None; timers := []; effects := es |}.
End Hook.


(** ** The query a navigation leaves in the location *)

(** [String(v)] *)
Fixpoint ToString (v : JsVal) : string :=
  match v with
  | VUndefined => "undefined"
  | VNull => "null"
  | VBool b => if b then "true" else "false"
  | VNum n => Number_toString n
  | VStr s => s
  | VArr l =>
      String.concat ","
        (map (fun x => if nullish x then "" else ToString x) l)
  | VObj _ => "[object Object]"
  end.

(** What query-string's [parse] reads for a key that [stringify] wrote with
    the value [v] (default options of the library): [undefined] writes
    nothing, [null] a bare key, an array one entry per element, anything
    else its text. *)
Definition qs_value (v : JsVal) : option JsVal :=
  match v with
  | VUndefined => None
  | VNull => Some VNull
  | VArr l =>
      match
        omap (fun x =>
                match x with
                | VUndefined => None
                | VNull => Some VNull
                | _ => Some (VStr (ToString x))
                end) l
      with
      | [] => None
      | [x] => Some x
      | xs => Some (VArr xs)
      end
  | _ => Some (VStr (ToString v))
  end.

(** [parse(stringify(o))]: the parsed query of the location after
    [navigate] was called with the search [o]. *)
Definition location_query (o : gmap string JsVal) : gmap string JsVal :=
  omap qs_value o.

(** ** The data model of the specification *)

(** A ParameterSet whose fields have their declared types. *)
Record ParameterSet : Type := {
  ps_page : Z;
  ps_perPage : Z;
  ps_sort : string;
  ps_order : string;
  ps_filters : list JsVal;
  ps_displayedFilters : JsVal;
}.

(** An integer that a JavaScript number holds exactly. *)
Definition safe_integer (z : Z) : Prop := - 2 ^ 53 < z < 2 ^ 53.

(** The integer [parseInt] reads at the start of [t], if there is one,
    is held exactly by a JavaScript number, so that it is what
    [parseInt(t, 10)] returns. *)
Definition reads_exactly (t : string) : Prop :=
  match parseInt t with
  | NaN => True
  | Int z => safe_integer z
  end.

(** The object that holds a ParameterSet. *)
Definition toParams (P : ParameterSet) : gmap string JsVal :=
  <["page" := VNum (Int (ps_page P))]>
  (<["perPage" := VNum (Int (ps_perPage P))]>
  (<["sort" := VStr (ps_sort P)]>
  (<["order" := VStr (ps_order P)]>
  (<["filters" := VArr (ps_filters P)]>
  (<["displayedFilters" := ps_displayedFilters P]> ∅))))).

(** The invariant of the data model on an object: [page] and [perPage]
    are integers, at least 1. *)
Definition valid_ParameterSet (o : gmap string JsVal) : Prop :=
  ∃ p pp : Z,
    o !! "page" = Some (VNum (Int p)) ∧ 1 <= p ∧
    o !! "perPage" = Some (VNum (Int pp)) ∧ 1 <= pp.

(** A value of the type [getNumberOrDefault] declares for its first
    argument, [string | number | undefined], or [null]. *)
Definition scalar (v : JsVal) : bool :=
  match v with
  | VUndefined | VNull | VNum _ | VStr _ => true
  | _ => false
  end.

(** A scalar that is missing, is not a number, or reads as an integer
    that is at least 1. *)
Definition reads_positive (v : JsVal) : bool :=
  match v with
  | VUndefined | VNull | VNum NaN => true
  | VNum (Int z) => 1 <=? z
  | VStr t =>
      match parseInt t with
      | NaN => true
      | Int z => 1 <=? z
      end
  | _ => false
  end.

(** The recognised parameters as the specification lists them. *)
Definition recognized (k : string) : Prop := k ∈ validQueryParams.

(** A field is set: it is neither missing nor [null]. *)
Definition is_set (v : JsVal) : Prop := v ≠ VUndefined ∧ v ≠ VNull.

(** The stored parameters of a list nobody touched, as the comment of
    [hasCustomParams] gives them:
    [{ filters: [], order: null, page: 1, perPage: null, sort: null }]. *)
Definition neutral : gmap string JsVal :=
  <["filters" := VArr []]>
  (<["order" := VNull]>
  (<["page" := VNum (Int 1)]>
  (<["perPage" := VNull]>
  (<["sort" := VNull]> ∅)))).

(** The first character of [s] is a decimal digit. *)
Definition starts_with_digit (s : string) : bool :=
  match s with
  | String c _ => bool_decide (is_Some (digit_val c))
  | EmptyString => false
  end.

(** [numeric s]: after the leading white space and an optional sign, [s]
    goes on with a decimal digit. *)
Definition numeric (s : string) : bool :=
  match skip_ws s with
  | String "-" r => starts_with_digit r
  | String "+" r => starts_with_digit r
  | r => starts_with_digit r
  end.

(** ** A JSON codec that runs

    An instance of [Builtins] for the values of the model: [null], the
    booleans, numerals that denote an integer, strings of 8-bit code
    units, arrays and objects. A numeral that denotes a fraction has no
    value in the model and is refused. *)

Module MiniJSON.

Definition dquote : ascii := "034"%char.
Definition backslash : ascii := "092"%char.

(** *** Writing *)

Definition hex_digit (n : nat) : ascii :=
  ascii_of_nat (if (n <? 10)%nat then 48 + n else 87 + n).

Definition escape_char (c : ascii) : string :=
  let n := nat_of_ascii c in
  let esc (e : ascii) := String backslash (String e EmptyString) in
  if (n =? 34)%nat then esc dquote
  else if (n =? 92)%nat then esc backslash
  else if (n =? 8)%nat then esc "b"%char%char
  else if (n =? 9)%nat then esc "t"%char%char
  else if (n =? 10)%nat then esc "n"%char%char
  else if (n =? 12)%nat then esc "f"%char%char
  else if (n =? 13)%nat then esc "r"%char%char
  else if (n <? 32)%nat then
    String backslash
      (String "u" (String "0" (String "0"
         (String (hex_digit (n / 16)) (String (hex_digit (n mod 16)) EmptyString)))))
  else String c EmptyString.

Fixpoint escape (s : string) : string :=
  match s with
  | EmptyString => EmptyString
  | String c r => escape_char c ++ escape r
  end.

Definition quote (s : string) : string :=
  String dquote (escape s ++ String dquote EmptyString).

(** [JSON.stringify(v)]: [undefined] has no text, is [null] inside an
    array and is left out of an object. *)
Fixpoint stringify (v : JsVal) : option string :=
  match v with
  | VUndefined => None
  | VNull => Some "null"
  | VBool b => Some (if b then "true" else "false")
  | VNum NaN => Some "null"
  | VNum (Int z) => Some (Number_toString (Int z))
  | VStr s => Some (quote s)
  | VArr l =>
      Some ("[" ++ String.concat ","
                     (map (fun x => default "null" (stringify x)) l) ++ "]")
  | VObj kvs =>
      Some ("{" ++ String.concat ","
                     (omap (fun kv : string * JsVal =>
                              let (k, x) := kv in
                              match stringify x with
                              | Some t => Some (quote k ++ ":" ++ t)
                              | None => None
                              end) kvs) ++ "}")
  end.

(** *** Reading *)

Definition json_ws (c : ascii) : bool :=
  let n := nat_of_ascii c in
  ((n =? 32) || (n =? 9) || (n =? 10) || (n =? 13))%nat.

Fixpoint skip (s : string) : string :=
  match s with
  | String c r => if json_ws c then skip r else s
  | EmptyString => s
  end.

Definition hex_val (c : ascii) : option nat :=
  let n := nat_of_ascii c in
  if ((48 <=? n) && (n <=? 57))%nat then Some (n - 48)%nat
  else if ((97 <=? n) && (n <=? 102))%nat then Some (n - 87)%nat
  else if ((65 <=? n) && (n <=? 70))%nat then Some (n - 55)%nat
  else None.

Definition unescape (e : ascii) : option ascii :=
  let n := nat_of_ascii e in
  if (n =? 34)%nat then Some dquote
  else if (n =? 92)%nat then Some backslash
  else if (n =? 47)%nat then Some "/"%char
  else if (n =? 98)%nat then Some (ascii_of_nat 8)
  else if (n =? 116)%nat then Some (ascii_of_nat 9)
  else if (n =? 110)%nat then Some (ascii_of_nat 10)
  else if (n =? 102)%nat then Some (ascii_of_nat 12)
  else if (n =? 114)%nat then Some (ascii_of_nat 13)
  else None.

(** The characters of a string literal after its opening quote, and the
    text after its closing quote. *)
Fixpoint string_body (s : string) : option (string * string) :=
  match s with
  | EmptyString => None
  | String c r =>
      if Ascii.eqb c dquote then Some (EmptyString, r)
      else if Ascii.eqb c backslash then
        match r with
        | String "u" (String h1 (String h2 (String h3 (String h4 r')))) =>
            match hex_val h1, hex_val h2, hex_val h3, hex_val h4 with
            | Some a, Some b, Some c', Some d =>
                let n := (((a * 16 + b) * 16 + c') * 16 + d)%nat in
                if (n <? 256)%nat then
                  match string_body r' with
                  | Some (t, rest) => Some (String (ascii_of_nat n) t, rest)
                  | None => None
                  end
                else None
            | _, _, _, _ => None
            end
        | String e r' =>
            match unescape e with
            | Some c' =>
                match string_body r' with
                | Some (t, rest) => Some (String c' t, rest)
                | None => None
                end
            | None => None
            end
        | EmptyString => None
        end
      else if (nat_of_ascii c <? 32)%nat then None
      else
        match string_body r with
        | Some (t, rest) => Some (String c t, rest)
        | None => None
        end
  end.

Fixpoint take_digits (s : string) : string * string :=
  match s with
  | String c r =>
      match digit_val c with
      | Some _ => let (ds, rest) := take_digits r in (String c ds, rest)
      | None => (EmptyString, s)
      end
  | EmptyString => (EmptyString, s)
  end.

(** The integer [m * 10^scale], when it is one. *)
Definition scaled (m scale : Z) : option Z :=
  if 0 <=? scale then Some (m * 10 ^ scale)
  else
    let d := 10 ^ (- scale) in
    if m mod d =? 0 then Some (m / d) else None.

(** The exponent part that may follow a mantissa: [e] or [E], an
    optional sign and digits; 0 when there is none, [None] when it is cut
    short. *)
Definition exponent (s : string) : option (Z * string) :=
  match s with
  | String c r =>
      if Ascii.eqb c "e" || Ascii.eqb c "E" then
        let '(neg, r1) :=
          match r with
          | String "-" r' => (true, r')
          | String "+" r' => (false, r')
          | _ => (false, r)
          end in
        let (es, rest) := take_digits r1 in
        match digits None es with
        | Some e => Some (if neg then - e else e, rest)
        | None => None
        end
      else Some (0, s)
  | EmptyString => Some (0, s)
  end.

(** The value of the mantissa digits [ds.fs] with the exponent that
    follows in [s]. *)
Definition mantissa_value (ds fs s : string) : option (Z * string) :=
  match exponent s with
  | Some (e, rest) =>
      match digits None (ds ++ fs) with
      | Some m =>
          match scaled m (e - Z.of_nat (String.length fs)) with
          | Some z => Some (z, rest)
          | None => None
          end
      | None => None
      end
  | None => None
  end.

(** A JSON numeral: an optional minus sign, then [0] or digits that do
    not start with [0], then an optional fraction (a point and at least
    one digit) and an optional exponent. Its value when that is an
    integer; a numeral that denotes a fraction has no value in the model
    and is refused. *)
Definition number (s : string) : option (Z * string) :=
  let '(neg, s1) :=
    match s with
    | String "-" r => (true, r)
    | _ => (false, s)
    end in
  let (ds, r1) := take_digits s1 in
  match ds with
  | EmptyString => None
  | String "0" (String _ _) => None
  | _ =>
      let frac :=
        match r1 with
        | String "." r =>
            let (fs, r2) := take_digits r in
            match fs with
            | EmptyString => None
            | _ => Some (fs, r2)
            end
        | _ => Some (EmptyString, r1)
        end in
      match frac with
      | Some (fs, r2) =>
          match mantissa_value ds fs r2 with
          | Some (z, rest) => Some (if neg then - z else z, rest)
          | None => None
          end
      | None => None
      end
  end.

(** The index a property name denotes: a decimal numeral without a
    leading zero, below [2^32 - 1]. *)
Definition array_index (k : string) : option Z :=
  match number k with
  | Some (n, EmptyString) =>
      if (0 <=? n) && (n <? 4294967295)
         && String.eqb k (Number_toString (Int n))
      then Some n else None
  | _ => None
  end.

(** [o[k] = v] on an object under construction: an existing key keeps
    its place; a new index goes among the indices, in increasing order,
    before the other keys; any other new key goes last. *)
Fixpoint obj_set (o : list (string * JsVal)) (k : string) (v : JsVal)
  : list (string * JsVal) :=
  match o with
  | [] => [(k, v)]
  | (k', v') :: r =>
      if String.eqb k k' then (k, v) :: r
      else if bool_decide (k ∈ map fst r) then (k', v') :: obj_set r k v
      else
        match array_index k, array_index k' with
        | Some i, Some i' =>
            if i <? i' then (k, v) :: o else (k', v') :: obj_set r k v
        | Some _, None => (k, v) :: o
        | None, _ => (k', v') :: obj_set r k v
        end
  end.

Definition literal (word : string) (v : JsVal) (s : string)
  : option (JsVal * string) :=
  if String.prefix word s
  then Some (v, String.substring (String.length word)
                  (String.length s - String.length word) s)
  else None.

Fixpoint value (fuel : nat) (s : string) : option (JsVal * string) :=
  match fuel with
  | O => None
  | S fuel =>
      match skip s with
      | EmptyString => None
      | String c r =>
          if Ascii.eqb c "n" then literal "null" VNull (skip s)
          else if Ascii.eqb c "t" then literal "true" (VBool true) (skip s)
          else if Ascii.eqb c "f" then literal "false" (VBool false) (skip s)
          else if Ascii.eqb c dquote then
            match string_body r with
            | Some (t, rest) => Some (VStr t, rest)
            | None => None
            end
          else if Ascii.eqb c "[" then
            match skip r with
            | String "]" rest => Some (VArr [], rest)
            | _ =>
                match elements fuel r with
                | Some (vs, rest) => Some (VArr vs, rest)
                | None => None
                end
            end
          else if Ascii.eqb c "{" then
            match skip r with
            | String "}" rest => Some (VObj [], rest)
            | _ =>
                match members fuel r [] with
                | Some (kvs, rest) => Some (VObj kvs, rest)
                | None => None
                end
            end
          else
            match number (skip s) with
            | Some (n, rest) => Some (VNum (Int n), rest)
            | None => None
            end
      end
  end
with elements (fuel : nat) (s : string) : option (list JsVal * string) :=
  match fuel with
  | O => None
  | S fuel =>
      match value fuel s with
      | Some (v, r) =>
          match skip r with
          | String "," r' =>
              match elements fuel r' with
              | Some (vs, rest) => Some (v :: vs, rest)
              | None => None
              end
          | String "]" rest => Some ([v], rest)
          | _ => None
          end
      | None => None
      end
  end
with members (fuel : nat) (s : string) (o : list (string * JsVal))
  : option (list (string * JsVal) * string) :=
  match fuel with
  | O => None
  | S fuel =>
      match skip s with
      | String c r =>
          if Ascii.eqb c dquote then
            match string_body r with
            | Some (k, r1) =>
                match skip r1 with
                | String ":" r2 =>
                    match value fuel r2 with
                    | Some (v, r3) =>
                        match skip r3 with
                        | String "," r4 => members fuel r4 (obj_set o k v)
                        | String "}" rest => Some (obj_set o k v, rest)
                        | _ => None
                        end
                    | None => None
                    end
                | _ => None
                end
            | None => None
            end
          else None
      | EmptyString => None
      end
  end.

(** [JSON.parse(s)] *)
Definition parse (s : string) : option JsVal :=
  match value (2 * String.length s + 2) s with
  | Some (v, rest) =>
      match skip rest with
      | EmptyString => Some v
      | _ => None
      end
  | None => None
  end.

(** The digits of [s] in the given base, as far as they go, from the
    accumulator; [None] when no digit has been read. *)
Fixpoint radix_digits (base : nat) (acc : option Z) (s : string)
  : option Z * string :=
  match s with
  | String c r =>
      match hex_val c with
      | Some d =>
          if (d <? base)%nat
          then radix_digits base
                 (Some (Z.of_nat base * default 0 acc + Z.of_nat d)) r
          else (acc, s)
      | None => (acc, s)
      end
  | EmptyString => (acc, s)
  end.

(** A decimal literal of [Number(s)] without its sign: digits with an
    optional point and fraction, or a point and digits, then an optional
    exponent. *)
Definition decimal_literal (s : string) : option (Z * string) :=
  let (ds, r1) := take_digits s in
  let '(fs, r2) :=
    match r1 with
    | String "." r => take_digits r
    | _ => (EmptyString, r1)
    end in
  match ds ++ fs with
  | EmptyString => None
  | _ => mantissa_value ds fs r2
  end.

(** [0x], [0o] and [0b] literals. *)
Definition radix_literal (s : string) : option (Z * string) :=
  match s with
  | String "0" (String c r) =>
      let base :=
        if Ascii.eqb c "x" || Ascii.eqb c "X" then 16%nat
        else if Ascii.eqb c "o" || Ascii.eqb c "O" then 8%nat
        else if Ascii.eqb c "b" || Ascii.eqb c "B" then 2%nat
        else 0%nat in
      match radix_digits base None r with
      | (Some z, rest) => Some (z, rest)
      | (None, _) => None
      end
  | _ => None
  end.

(** [Number(s)]: white space around a literal; the empty text reads as
    [0]. The literals that denote an integer have their value; the
    others ([Infinity], a fraction) have none in the model and read as
    [NaN] like a malformed text. *)
Definition string_to_number (s : string) : Num :=
  match skip_ws s with
  | EmptyString => Int 0
  | s1 =>
      match radix_literal s1 with
      | Some (z, rest) =>
          match skip_ws rest with
          | EmptyString => Int z
          | _ => NaN
          end
      | None =>
          let '(neg, s2) :=
            match s1 with
            | String "-" r => (true, r)
            | String "+" r => (false, r)
            | _ => (false, s1)
            end in
          match decimal_literal s2 with
          | Some (z, rest) =>
              match skip_ws rest with
              | EmptyString => Int (if neg then - z else z)
              | _ => NaN
              end
          | None => NaN
          end
      end
  end.

#[export] Instance builtins : Builtins := {|
  JSON_parse := parse;
  JSON_stringify := stringify;
  StringToNumber := string_to_number;
  JSON_parse_empty := eq_refl;
|}.

End MiniJSON.

(** ** The reducer of the specification *)

Module SpecReducer.

Definition SORT_ASC : string := "ASC".
Definition SORT_DESC : string := "DESC".

Definition same_string (a b : JsVal) : bool :=
  match a, b with
  | VStr x, VStr y => String.eqb x y
  | _, _ => false
  end.

Definition opposite (o : JsVal) : JsVal :=
  if same_string o (VStr SORT_DESC) then VStr SORT_ASC else VStr SORT_DESC.

Definition has_field (name : JsVal) (item : JsVal) : bool :=
  same_string (get item "field") name.

Definition items (v : JsVal) : list JsVal :=
  match v with
  | VArr l => l
  | _ => []
  end.

Definition entries (v : JsVal) : list (string * JsVal) :=
  match v with
  | VObj kvs => kvs
  | _ => []
  end.

Definition without (name : JsVal) (kvs : list (string * JsVal))
  : list (string * JsVal) :=
  List.filter (fun kv => negb (same_string (VStr kv.1) name)) kvs.

(** Modelled from the spec: [queryReducer], the default export of
    [./queryReducer], which is not among the sources; the action types
    are named after the constants the hook imports. Section 4.2: set-sort
    takes a field and an optional order and toggles the order when the
    field is the current one; set-page sets the page; set-per-page sets
    perPage and resets the page to 1; set-filters replaces filters and
    displayedFilters and resets the page to 1; hide-filter removes a
    filter's visibility flag and its value; show-filter adds a visibility
    flag and seeds a default value if none is present; any other action
    changes nothing. *)
Definition reduce (p : gmap string JsVal) (a : Action) : gmap string JsVal :=
  let t := type a in
  if String.eqb t "SET_SORT" then
    if same_string (get (payload a) "sort") (prop p "sort")
    then <["order" := opposite (prop p "order")]> p
    else
      <["order" := if nullish (get (payload a) "order") then VStr SORT_ASC
                   else get (payload a) "order"]>
        (<["sort" := get (payload a) "sort"]> p)
  else if String.eqb t "SET_PAGE" then <["page" := payload a]> p
  else if String.eqb t "SET_PER_PAGE" then
    <["page" := VNum (Int 1)]> (<["perPage" := payload a]> p)
  else if String.eqb t "SET_FILTERS" then
    <["page" := VNum (Int 1)]>
      (<["displayedFilters" := get (payload a) "displayedFilters"]>
         (<["filters" := get (payload a) "filters"]> p))
  else if String.eqb t "HIDE_FILTER" then
    <["displayedFilters" :=
        VObj (without (payload a) (entries (prop p "displayedFilters")))]>
      (<["filters" :=
           VArr (List.filter (fun i => negb (has_field (payload a) i))
                   (items (prop p "filters")))]> p)
  else if String.eqb t "SHOW_FILTER" then
    let name := get (payload a) "filterName" in
    let shown :=
      (without name (entries (prop p "displayedFilters"))
         ++ [(ToString name, VBool true)])%list in
    let fs := items (prop p "filters") in
    <["displayedFilters" := VObj shown]>
      (<["filters" :=
           VArr (if existsb (has_field name) fs then fs
                 else (fs ++ [filterItem (ToString name)
                                (get (payload a) "defaultValue")])%list)]> p)
  else p.

#[export] Instance reducer : Reducer := {|
  queryReducer := reduce;
  SET_PAGE := "SET_PAGE";
  SET_PER_PAGE := "SET_PER_PAGE";
|}.

End SpecReducer.

(** ** What the hook returns, and runs of its batcher *)

Definition emptyObject : JsVal := VObj [].
Definition emptyArray : JsVal := VArr [].

(** The first component of what [useListParams] returns:
    [{ displayedFilters: displayedFilterValues, filterValues,
       requestSignature, ...query }], the properties of [query] written
    last. *)
Definition useListParams_parameters (requestSignature : JsVal)
    (query : gmap string JsVal) : gmap string JsVal :=
  let filterValues :=
    if truthy (prop query "filters") then prop query "filters"
    else emptyArray in
  let displayedFilterValues :=
    if truthy (prop query "displayedFilters")
    then prop query "displayedFilters" else emptyObject in
  query ∪
    (<["displayedFilters" := displayedFilterValues]>
    (<["filterValues" := filterValues]>
    (<["requestSignature" := requestSignature]> ∅))).

(** What happens to the batcher: a call of [changeParams], made by a
    render whose query is [query], or the timers coming due. *)
Inductive Event : Type :=
| Call (query : gmap string JsVal) (action : Action)
| Timeout.

Section Runs.
Context {B : Builtins} {Rd : Reducer}.

Definition step (disableSync : bool) (b : Batcher) (e : Event) : Batcher :=
  match e with
  | Call query action => changeParams query action b
  | Timeout => run_timers disableSync b
  end.

Definition run (disableSync : bool) (events : list Event) (b : Batcher)
  : Batcher :=
  foldl (step disableSync) b events.

(** The calls of one synchronous run, each with the query of the render
    it comes from, and then the timers. *)
Definition batch_events (calls : list (gmap string JsVal * Action))
  : list Event :=
  (map (fun c => Call c.1 c.2) calls ++ [Timeout])%list.

(** The call a batch ends in, if it has any action: the reducer folded
    from the query of the first call. *)
Definition batch_effect (disableSync : bool)
    (calls : list (gmap string JsVal * Action)) : option Effect :=
  match calls with
  | [] => None
  | (query, action) :: rest =>
      let pending := foldl queryReducer query (action :: map snd rest) in
      Some (if disableSync then SetLocalParams (Some pending)
            else Navigate (searchParams pending)
                   (String.eqb (type action) SET_PAGE))
  end.

(** An effect that commits parameters the way the mode asks for. *)
Definition commits (disableSync : bool) (e : Effect) : bool :=
  match e with
  | SetLocalParams (Some _) => disableSync
  | Navigate _ _ => negb disableSync
  | _ => false
  end.

(** Nothing is pending, or one batch is and one timer with it. *)
Definition balanced (b : Batcher) : Prop :=
  (tempParams b = None ∧ timers b = [])
  ∨ (∃ p a, tempParams b = Some p ∧ timers b = [a]).
End Runs.


(** * Properties *)

(** ** Reading parameter objects *)

Lemma prop_lookup (o : gmap string JsVal) k v : o !! k = Some v → prop o k = v.
Proof. unfold prop. by intros ->. Qed.

Lemma prop_missing (o : gmap string JsVal) k : o !! k = None → prop o k = VUndefined.
Proof. unfold prop. by intros ->. Qed.

Lemma prop_insert_eq (o : gmap string JsVal) k v : prop (<[k := v]> o) k = v.
Proof. unfold prop. by rewrite lookup_insert_eq. Qed.

Lemma prop_insert_ne (o : gmap string JsVal) k k' v :
  k ≠ k' → prop (<[k := v]> o) k' = prop o k'.
Proof. intros. unfold prop. by rewrite lookup_insert_ne. Qed.

Lemma nullish_missing (o : gmap string JsVal) k :
  o !! k = None → nullish (prop o k) = true.
Proof. intros E. by rewrite (prop_missing _ _ E). Qed.

Lemma truthy_not_nullish v : truthy v = true → nullish v = false.
Proof. by destruct v. Qed.

Lemma is_set_nullish v : is_set v ↔ nullish v = false.
Proof.
  unfold is_set. destruct v; simpl; split; try done; intros []; congruence.
Qed.

Lemma has_keys_spec (o : gmap string JsVal) : has_keys o = true ↔ o ≠ ∅.
Proof.
  unfold has_keys. rewrite bool_decide_eq_true, <- map_size_non_empty_iff. lia.
Qed.

Lemma has_keys_lookup (o : gmap string JsVal) k :
  is_Some (o !! k) → has_keys o = true.
Proof.
  intros [v E]. apply has_keys_spec. intros ->. by rewrite lookup_empty in E.
Qed.

Lemma has_keys_empty : has_keys ∅ = false.
Proof. reflexivity. Qed.

(** ** The three default injections *)

Section DefaultsFacts.
Context {B : Builtins}.
Implicit Types (b : gmap string JsVal) (s : SortPayload) (pp : Num).

Lemma defaults_sort b s pp :
  getQuery_defaults b s pp !! "sort" =
    if truthy (prop b "sort") then b !! "sort" else Some (VStr (field s)).
Proof.
  unfold getQuery_defaults.
  destruct (truthy (prop b "sort")); simpl;
    repeat case_match; by simplify_map_eq.
Qed.

Lemma defaults_order b s pp :
  getQuery_defaults b s pp !! "order" =
    if truthy (prop b "sort") then b !! "order" else Some (VStr (order s)).
Proof.
  unfold getQuery_defaults.
  destruct (truthy (prop b "sort")); simpl;
    repeat case_match; by simplify_map_eq.
Qed.

Lemma defaults_perPage b s pp :
  getQuery_defaults b s pp !! "perPage" =
    if nullish (prop b "perPage") then Some (VNum pp) else b !! "perPage".
Proof.
  unfold getQuery_defaults.
  destruct (truthy (prop b "sort")); simpl;
    rewrite ?prop_insert_ne by done;
    destruct (nullish (prop b "perPage")); simpl;
    repeat case_match; by simplify_map_eq.
Qed.

Lemma defaults_page b s pp :
  getQuery_defaults b s pp !! "page" =
    if nullish (prop b "page") then Some (VNum (Int 1)) else b !! "page".
Proof.
  unfold getQuery_defaults.
  destruct (truthy (prop b "sort")); simpl;
    destruct (nullish (prop _ "perPage")); simpl;
    rewrite ?prop_insert_ne by done;
    destruct (nullish (prop b "page")); simpl; by simplify_map_eq.
Qed.

Lemma defaults_other b s pp k :
  k ≠ "sort" → k ≠ "order" → k ≠ "perPage" → k ≠ "page" →
  getQuery_defaults b s pp !! k = b !! k.
Proof.
  intros ? ? ? ?. unfold getQuery_defaults.
  repeat case_match; by simplify_map_eq.
Qed.

Lemma getQuery_lookup_page q params fdv s pp :
  getQuery q params fdv s pp !! "page" =
    Some (getNumberOrDefault
            (prop (getQuery_defaults (getQuery_base q params fdv) s pp) "page")
            (Int 1)).
Proof. unfold getQuery. by simplify_map_eq. Qed.

Lemma getQuery_lookup_perPage q params fdv s pp :
  getQuery q params fdv s pp !! "perPage" =
    Some (getNumberOrDefault
            (prop (getQuery_defaults (getQuery_base q params fdv) s pp) "perPage")
            (Int 10)).
Proof. unfold getQuery. by simplify_map_eq. Qed.

Lemma getQuery_page q params fdv s pp :
  getQuery q params fdv s pp !! "page" =
    Some (getNumberOrDefault
            (if nullish (prop (getQuery_base q params fdv) "page")
             then VNum (Int 1) else prop (getQuery_base q params fdv) "page")
            (Int 1)).
Proof.
  rewrite getQuery_lookup_page. unfold prop at 1. rewrite defaults_page.
  by destruct (nullish _).
Qed.

Lemma getQuery_perPage q params fdv s pp :
  getQuery q params fdv s pp !! "perPage" =
    Some (getNumberOrDefault
            (if nullish (prop (getQuery_base q params fdv) "perPage")
             then VNum pp else prop (getQuery_base q params fdv) "perPage")
            (Int 10)).
Proof.
  rewrite getQuery_lookup_perPage. unfold prop at 1. rewrite defaults_perPage.
  by destruct (nullish _).
Qed.

Lemma getQuery_lookup_other q params fdv s pp k :
  k ≠ "page" → k ≠ "perPage" →
  getQuery q params fdv s pp !! k =
    getQuery_defaults (getQuery_base q params fdv) s pp !! k.
Proof. intros. unfold getQuery. by simplify_map_eq. Qed.

End DefaultsFacts.

(** ** [parseInt] and [getNumberOrDefault] *)

Lemma digits_from a s : is_Some (digits (Some a) s).
Proof.
  revert a. induction s as [|c r IH]; intros a; simpl; [by eexists|].
  destruct (digit_val c); [apply IH | by eexists].
Qed.

Lemma digits_none s : digits None s = None ↔ starts_with_digit s = false.
Proof.
  destruct s as [|c r]; simpl; [done|].
  destruct (digit_val c) as [d|]; simpl.
  - destruct (digits_from (10 * 0 + d) r) as [z ->]. by split.
  - by split.
Qed.

Lemma parseInt_signed neg s :
  match digits None s with
  | Some n => Int (if neg : bool then - n else n)
  | None => NaN
  end = NaN ↔ starts_with_digit s = false.
Proof.
  rewrite <- digits_none. destruct (digits None s); split; congruence.
Qed.

(** [parseInt] yields [NaN] exactly on the strings that are not
    [numeric]. *)
Lemma parseInt_NaN_iff s : parseInt s = NaN ↔ numeric s = false.
Proof.
  unfold parseInt, numeric. destruct (skip_ws s) as [|c r].
  - apply (parseInt_signed false).
  - destruct c as [[] [] [] [] [] [] [] []];
      first [ apply (parseInt_signed false) | apply (parseInt_signed true) ].
Qed.

Section NumberFacts.
Context {B : Builtins}.

Lemma getNumberOrDefault_string s d :
  getNumberOrDefault (VStr s) d =
    VNum (match parseInt s with NaN => d | Int z => Int z end).
Proof. unfold getNumberOrDefault, isNaN. simpl. by destruct (parseInt s). Qed.

Lemma getNumberOrDefault_number n d :
  getNumberOrDefault (VNum n) d =
    VNum (match n with NaN => d | Int z => Int z end).
Proof. unfold getNumberOrDefault, isNaN. simpl. by destruct n. Qed.

Lemma getNumberOrDefault_undefined d : getNumberOrDefault VUndefined d = VNum d.
Proof. reflexivity. Qed.

End NumberFacts.

(** ** The base of [getQuery] *)

Section BaseFacts.
Context {B : Builtins}.

Lemma no_recognized_empty (q : gmap string JsVal) :
  map_Forall (fun k _ => recognized k) q →
  ¬ (∃ k, recognized k ∧ is_Some (q !! k)) →
  q = ∅.
Proof.
  intros Hq Hno. apply map_empty. intros k.
  destruct (q !! k) as [v|] eqn:E; [|done].
  destruct Hno. exists k. split; [by eapply Hq | by eexists].
Qed.

(** C1. [getQuery] chooses the object it starts from by strict priority.
    If the query from the location has at least one recognised parameter,
    it is the base itself. Otherwise (the keys of the query being
    recognised parameters only, as [Partial<ListParams>] has it and as
    [parseQueryFromLocation] returns it), if [hasCustomParams] holds of
    the stored parameters, the base is a copy of them; otherwise the base
    holds [filters] only, with the default filters, or the empty list when
    none are given. *)
Theorem getQuery_base_priority (q : gmap string JsVal)
    (params : option (gmap string JsVal)) (fdv : JsVal) :
  let base := getQuery_base q params fdv in
  ((∃ k, recognized k ∧ is_Some (q !! k)) → base = q) ∧
  (map_Forall (fun k _ => recognized k) q →
   ¬ (∃ k, recognized k ∧ is_Some (q !! k)) →
     (hasCustomParams params = true → ∃ p, params = Some p ∧ base = p) ∧
     (hasCustomParams params = false →
        (∀ l, fdv = VArr l → base = {["filters" := VArr l]}) ∧
        (fdv = VUndefined → base = {["filters" := VArr []]}))).
Proof.
  intros base. subst base. unfold getQuery_base. split.
  - intros (k & _ & Hk). by rewrite (has_keys_lookup _ _ Hk).
  - intros Hq Hno. rewrite (no_recognized_empty _ Hq Hno), has_keys_empty.
    split; intros Hc; rewrite Hc.
    + destruct params as [p|]; [by exists p | done].
    + split; [intros l -> | intros ->]; done.
Qed.

End BaseFacts.

(** What [parseQueryFromLocation] returns has recognised keys only. *)
Lemma parseObject_keys {B : Builtins} (P : string → Prop) q f :
  P f → map_Forall (fun k _ => P k) q →
  map_Forall (fun k (_ : JsVal) => P k) (parseObject q f).
Proof.
  intros Hf Hq. unfold parseObject.
  destruct (truthy _ && is_string _); [|done].
  destruct (prop q f); try done.
  destruct (JSON_parse s).
  - by apply map_Forall_insert_2.
  - by apply map_Forall_delete.
Qed.

Lemma parseQueryFromLocation_keys {B : Builtins} parsed :
  map_Forall (fun k _ => recognized k) (parseQueryFromLocation parsed).
Proof.
  assert (map_Forall (fun k (_ : JsVal) => recognized k)
            (pickBy parsed (fun _ k => bool_decide (k ∈ validQueryParams)))) as H0.
  { intros k v [_ Hk]%map_lookup_filter_Some. simpl in Hk.
    by apply bool_decide_eq_true in Hk. }
  assert (recognized "filters") as Hf by (by apply (bool_decide_unpack _)).
  assert (recognized "displayedFilters") as Hd by (by apply (bool_decide_unpack _)).
  unfold parseQueryFromLocation.
  pose proof (parseObject_keys _ _ "displayedFilters" Hd
                (parseObject_keys _ _ "filters" Hf H0)) as H1.
  set (q2 := parseObject _ "displayedFilters") in *.
  destruct (_ && _); [|done]. apply map_Forall_delete.
  destruct (prop q2 "filter"); try done.
  destruct (JSON_parse s); [|done].
  destruct (toFilterItems j); [|done].
  by apply map_Forall_insert_2.
Qed.

Lemma getQuery_base_priority_witness :
  getQuery_base (B := MiniJSON.builtins)
    (parseQueryFromLocation (B := MiniJSON.builtins) {["page" := VStr "2"]})
    (Some neutral) VUndefined
  = parseQueryFromLocation (B := MiniJSON.builtins) {["page" := VStr "2"]}
  ∧ ∃ p, Some (<["page" := VNum (Int 3)]> neutral) = Some p
         ∧ getQuery_base (B := MiniJSON.builtins)
             (parseQueryFromLocation (B := MiniJSON.builtins)
                {["utm" := VStr "x"]})
             (Some (<["page" := VNum (Int 3)]> neutral)) VUndefined = p.
Proof.
  split.
  - refine (proj1 (getQuery_base_priority (B := MiniJSON.builtins)
                     _ (Some neutral) VUndefined) _).
    exists "page". split.
    + apply (bool_decide_unpack _). by vm_compute.
    + vm_compute. by eexists.
  - refine (proj1 (proj2 (getQuery_base_priority (B := MiniJSON.builtins)
                     _ (Some (<["page" := VNum (Int 3)]> neutral)) VUndefined)
                     _ _) _).
    + apply parseQueryFromLocation_keys.
    + intros (k & _ & v & Hv). vm_compute in Hv. discriminate Hv.
    + by vm_compute.
Defined.

(** ** Defaults and coercion in [getQuery] *)

Section GetQueryFacts.
Context {B : Builtins}.
Implicit Types (q : gmap string JsVal) (params : option (gmap string JsVal)).

(** C4. Whatever base was chosen, [getQuery] puts in the caller's default
    sort field and order when sort is absent (the code's test is [!query.sort]:
    a missing, [null] or empty sort), and keeps the sort and order of the base
    otherwise; it puts in the caller's default perPage when perPage is absent
    and page 1 when page is absent (the test is [== null]: missing or
    [null]); page and perPage are then made integers, with 1 and 10 taken
    when that fails: [getNumberOrDefault("abc", 10)] is 10,
    [getNumberOrDefault("7", 10)] is 7, [getNumberOrDefault(undefined, 1)]
    is 1, and the default is returned for every string that is not
    numeric, for [undefined] and for [NaN], and only for those strings. *)
Theorem getQuery_defaults_and_coercion q params fdv (s : SortPayload) (pp : Num) :
  let base := getQuery_base q params fdv in
  let R := getQuery q params fdv s pp in
  (truthy (prop base "sort") = false →
     R !! "sort" = Some (VStr (field s)) ∧ R !! "order" = Some (VStr (order s))) ∧
  (truthy (prop base "sort") = true →
     R !! "sort" = base !! "sort" ∧ R !! "order" = base !! "order") ∧
  (nullish (prop base "perPage") = true →
     R !! "perPage" = Some (VNum (match pp with NaN => Int 10 | Int z => Int z end))) ∧
  (nullish (prop base "page") = true → R !! "page" = Some (VNum (Int 1))) ∧
  (∀ t, prop base "page" = VStr t → reads_exactly t →
     R !! "page" = Some (VNum (match parseInt t with NaN => Int 1 | Int z => Int z end))) ∧
  (∀ t, prop base "perPage" = VStr t → reads_exactly t →
     R !! "perPage" = Some (VNum (match parseInt t with NaN => Int 10 | Int z => Int z end))) ∧
  (∀ n, prop base "page" = VNum n →
     R !! "page" = Some (VNum (match n with NaN => Int 1 | Int z => Int z end))) ∧
  (∀ n, prop base "perPage" = VNum n →
     R !! "perPage" = Some (VNum (match n with NaN => Int 10 | Int z => Int z end))) ∧
  getNumberOrDefault (VStr "abc") (Int 10) = VNum (Int 10) ∧
  getNumberOrDefault (VStr "7") (Int 10) = VNum (Int 7) ∧
  getNumberOrDefault VUndefined (Int 1) = VNum (Int 1) ∧
  (∀ t d, numeric t = false → getNumberOrDefault (VStr t) d = VNum d) ∧
  (∀ t, numeric t = true → parseInt t ≠ NaN) ∧
  (∀ t d z, parseInt t = Int z → safe_integer z →
     getNumberOrDefault (VStr t) d = VNum (Int z)) ∧
  (∀ d, getNumberOrDefault VUndefined d = VNum d) ∧
  (∀ d, getNumberOrDefault (VNum NaN) d = VNum d).
Proof.
  intros base R. subst R.
  rewrite getQuery_page, getQuery_perPage.
  rewrite !getQuery_lookup_other by done.
  rewrite defaults_sort, defaults_order. fold base.
  split; [|split; [|split; [|split; [|split; [|split; [|split; [|split]]]]]]].
  - by intros ->.
  - by intros ->.
  - intros ->. by rewrite getNumberOrDefault_number.
  - by intros ->.
  - intros t -> _. cbn [nullish]. by rewrite getNumberOrDefault_string.
  - intros t -> _. cbn [nullish]. by rewrite getNumberOrDefault_string.
  - intros n ->. cbn [nullish]. by rewrite getNumberOrDefault_number.
  - intros n ->. cbn [nullish]. by rewrite getNumberOrDefault_number.
  - repeat split.
    + intros t d Ht. rewrite getNumberOrDefault_string.
      apply parseInt_NaN_iff in Ht. by rewrite Ht.
    + intros t Ht E. apply parseInt_NaN_iff in E. congruence.
    + intros t d z E _. by rewrite getNumberOrDefault_string, E.
Qed.

(** C10. When the base has a sort field but no order, the resolved
    parameters have no order either: the default order comes in only
    together with the default sort field. *)
Theorem getQuery_order_follows_sort q params fdv (s : SortPayload) (pp : Num) :
  let base := getQuery_base q params fdv in
  let R := getQuery q params fdv s pp in
  (truthy (prop base "sort") = true → base !! "order" = None →
     R !! "order" = None) ∧
  (truthy (prop base "sort") = true →
     R !! "sort" = base !! "sort" ∧ R !! "order" = base !! "order") ∧
  (R !! "order" ≠ base !! "order" →
     truthy (prop base "sort") = false ∧
     R !! "sort" = Some (VStr (field s)) ∧
     R !! "order" = Some (VStr (order s))).
Proof.
  intros base R. subst R.
  rewrite !getQuery_lookup_other by done.
  rewrite defaults_sort, defaults_order. fold base.
  destruct (truthy (prop base "sort")); repeat split; done.
Qed.

End GetQueryFacts.

Lemma getQuery_defaults_and_coercion_witness :
  let R :=
    getQuery (B := MiniJSON.builtins) ∅
      (Some (<["page" := VStr "3"]> neutral)) VUndefined
      {| field := "id"; order := "ASC" |} (Int 25) in
  (R !! "sort" = Some (VStr "id") ∧ R !! "order" = Some (VStr "ASC")) ∧
  R !! "perPage" = Some (VNum (Int 25)) ∧
  R !! "page" = Some (VNum (Int 3)).
Proof.
  pose proof (getQuery_defaults_and_coercion (B := MiniJSON.builtins) ∅
                (Some (<["page" := VStr "3"]> neutral)) VUndefined
                {| field := "id"; order := "ASC" |} (Int 25))
    as (Hsort & _ & HperPage & _ & Hpage & _).
  split; [|split].
  - apply Hsort. by vm_compute.
  - apply HperPage. by vm_compute.
  - apply (Hpage "3"); by vm_compute.
Defined.

Lemma getQuery_order_follows_sort_witness :
  getQuery (B := MiniJSON.builtins)
    {["sort" := VStr "name"]} None VUndefined {| field := "id"; order := "ASC" |}
    (Int 10) !! "order" = None.
Proof.
  refine (proj1
    (getQuery_order_follows_sort (B := MiniJSON.builtins)
       {["sort" := VStr "name"]} None VUndefined
       {| field := "id"; order := "ASC" |} (Int 10)) _ _);
    by vm_compute.
Defined.

(** ** [hasCustomParams] *)

Section CustomFacts.
Context {B : Builtins}.

Lemma gt_zero_length (fs : list JsVal) :
  gt_zero (js_length (VArr fs)) = true ↔ fs ≠ [].
Proof.
  unfold gt_zero. simpl. rewrite Z.ltb_lt. destruct fs; simpl; [|split; [done|lia]].
  split; [lia | done].
Qed.

Lemma hasCustomParams_unfold (p : gmap string JsVal) :
  hasCustomParams (Some p) = true ↔
    (truthy (prop p "filters") && gt_zero (js_length (prop p "filters")) = true)
    ∨ is_set (prop p "order")
    ∨ prop p "page" ≠ VNum (Int 1)
    ∨ is_set (prop p "perPage")
    ∨ is_set (prop p "sort").
Proof.
  unfold hasCustomParams. rewrite !orb_true_iff, !negb_true_iff, !is_set_nullish.
  assert (is_one (prop p "page") = false ↔ prop p "page" ≠ VNum (Int 1)) as ->.
  { destruct (prop p "page") as [| |?|[|[|[]|]]|?|?|?]; simpl; split; done. }
  tauto.
Qed.

(** C6. [hasCustomParams] holds exactly of the stored parameters that
    leave the neutral shape. It is false of
    [{ filters: [], order: null, page: 1, perPage: null, sort: null }];
    of any parameters whose filters are a list (or are missing) it is
    true if and only if the filters are not empty, or order is set, or page
    is not 1, or perPage is set, or sort is set; so giving one field of
    the neutral shape a value that is not neutral makes it true. *)
Theorem hasCustomParams_deviation :
  hasCustomParams (Some neutral) = false ∧
  hasCustomParams None = false ∧
  (∀ (p : gmap string JsVal) (fs : list JsVal),
     prop p "filters" = VArr fs →
     (hasCustomParams (Some p) = true ↔
        fs ≠ [] ∨ is_set (prop p "order") ∨ prop p "page" ≠ VNum (Int 1)
        ∨ is_set (prop p "perPage") ∨ is_set (prop p "sort"))) ∧
  (∀ p : gmap string JsVal,
     nullish (prop p "filters") = true →
     (hasCustomParams (Some p) = true ↔
        is_set (prop p "order") ∨ prop p "page" ≠ VNum (Int 1)
        ∨ is_set (prop p "perPage") ∨ is_set (prop p "sort"))) ∧
  (∀ f fs, hasCustomParams (Some (<["filters" := VArr (f :: fs)]> neutral)) = true) ∧
  (∀ v, is_set v → hasCustomParams (Some (<["order" := v]> neutral)) = true) ∧
  (∀ v, v ≠ VNum (Int 1) → hasCustomParams (Some (<["page" := v]> neutral)) = true) ∧
  (∀ v, is_set v → hasCustomParams (Some (<["perPage" := v]> neutral)) = true) ∧
  (∀ v, is_set v → hasCustomParams (Some (<["sort" := v]> neutral)) = true).
Proof.
  split; [done|]. split; [done|]. split; [|split].
  - intros p fs E. rewrite hasCustomParams_unfold, E.
    change (truthy (VArr fs)) with true. rewrite andb_true_l, gt_zero_length.
    tauto.
  - intros p E. rewrite hasCustomParams_unfold.
    destruct (prop p "filters"); try discriminate E; simpl;
      intuition discriminate.
  - split; [done|]. repeat split.
    + intros v Hv. apply hasCustomParams_unfold. right. left.
      by rewrite prop_insert_eq.
    + intros v Hv. apply hasCustomParams_unfold. right. right. left.
      by rewrite prop_insert_eq.
    + intros v Hv. apply hasCustomParams_unfold. do 3 right. left.
      by rewrite prop_insert_eq.
    + intros v Hv. apply hasCustomParams_unfold. do 4 right.
      by rewrite prop_insert_eq.
Qed.

End CustomFacts.

Lemma hasCustomParams_deviation_witness :
  hasCustomParams (B := MiniJSON.builtins)
    (Some (<["page" := VNum (Int 3)]> neutral)) = true.
Proof.
  refine (proj1 (proj2 (proj2 (proj2 (proj2 (proj2 (proj2
    (hasCustomParams_deviation (B := MiniJSON.builtins)))))))) (VNum (Int 3)) _).
  discriminate.
Defined.

(** ** [parseObject] and [parseQueryFromLocation] *)

Lemma assoc_NoDup (kvs : list (string * JsVal)) k v :
  NoDup (map fst kvs) → (k, v) ∈ kvs → assoc k kvs = v.
Proof.
  induction kvs as [|[k' v'] r IH]; simpl; intros Hnd Hin.
  - by apply elem_of_nil in Hin.
  - apply NoDup_cons in Hnd as [Hk' Hnd].
    apply elem_of_cons in Hin as [[= -> ->]|Hin].
    + by rewrite String.eqb_refl.
    + destruct (String.eqb_spec k k') as [->|_]; [|by apply IH].
      destruct Hk'. apply list_elem_of_fmap. by exists (k', v).
Qed.

Lemma map_assoc_NoDup (kvs : list (string * JsVal)) :
  NoDup (map fst kvs) →
  map (fun name => filterItem name (assoc name kvs)) (map fst kvs)
  = map (fun kv => filterItem kv.1 kv.2) kvs.
Proof.
  intros Hnd. rewrite map_map. apply map_ext_in. intros [k v] Hin. simpl.
  f_equal. apply assoc_NoDup; [done|]. by apply list_elem_of_In.
Qed.

Section ParsingFacts.
Context {B : Builtins}.
Implicit Types (q parsed : gmap string JsVal).

Lemma pickBy_valid_lookup parsed k :
  pickBy parsed (fun _ k => bool_decide (k ∈ validQueryParams)) !! k =
    if bool_decide (k ∈ validQueryParams) then parsed !! k else None.
Proof.
  unfold pickBy. rewrite map_lookup_filter. simpl.
  destruct (parsed !! k) as [v|]; simpl; [|by destruct (bool_decide _)].
  destruct (bool_decide (k ∈ validQueryParams)) eqn:E.
  - by rewrite option_guard_True.
  - by rewrite option_guard_False.
Qed.

Lemma parseObject_lookup_ne q f k : k ≠ f → parseObject q f !! k = q !! k.
Proof.
  intros Hk. unfold parseObject.
  destruct (truthy _ && is_string _); [|done].
  destruct (prop q f); try done.
  destruct (JSON_parse s).
  - by rewrite lookup_insert_ne.
  - by rewrite lookup_delete_ne.
Qed.

(** The field itself: a non-empty string is replaced by what it parses
    to, or removed; anything else stays. *)
Lemma parseObject_lookup_eq q f :
  parseObject q f !! f =
    match q !! f with
    | Some (VStr s) => if String.eqb s "" then Some (VStr s) else JSON_parse s
    | o => o
    end.
Proof.
  unfold parseObject, prop.
  destruct (q !! f) as [v|] eqn:E; simpl; [|by rewrite E].
  destruct v as [| |b|n|s|l|l]; simpl; rewrite ?andb_false_r, ?E; try done.
  destruct (String.eqb s ""); simpl; [done|].
  destruct (JSON_parse s).
  - by rewrite lookup_insert_eq.
  - by rewrite lookup_delete_eq.
Qed.

Lemma parsed_objects_filters parsed :
  parsed_objects parsed !! "filters" =
    match parsed !! "filters" with
    | Some (VStr s) => if String.eqb s "" then Some (VStr s) else JSON_parse s
    | o => o
    end.
Proof.
  unfold parsed_objects. rewrite parseObject_lookup_ne by done.
  by rewrite parseObject_lookup_eq, pickBy_valid_lookup.
Qed.

Lemma parsed_objects_displayedFilters parsed :
  parsed_objects parsed !! "displayedFilters" =
    match parsed !! "displayedFilters" with
    | Some (VStr s) => if String.eqb s "" then Some (VStr s) else JSON_parse s
    | o => o
    end.
Proof.
  unfold parsed_objects. rewrite parseObject_lookup_eq.
  by rewrite parseObject_lookup_ne, pickBy_valid_lookup.
Qed.

Lemma parsed_objects_other parsed k :
  k ≠ "filters" → k ≠ "displayedFilters" →
  parsed_objects parsed !! k =
    if bool_decide (k ∈ validQueryParams) then parsed !! k else None.
Proof.
  intros. unfold parsed_objects.
  by rewrite !parseObject_lookup_ne, pickBy_valid_lookup.
Qed.

Lemma parseQueryFromLocation_unfold parsed :
  parseQueryFromLocation parsed =
    let query := parsed_objects parsed in
    if negb (truthy (prop query "filters"))
       && truthy (prop query "filter") && is_string (prop query "filter")
    then
      delete "filter"
        match prop query "filter" with
        | VStr s =>
            match JSON_parse s with
            | Some filterObject =>
                match toFilterItems filterObject with
                | Some items => <["filters" := items]> query
                | None => query
                end
            | None => query
            end
        | _ => query
        end
    else query.
Proof. reflexivity. Qed.

Lemma string_nonempty_truthy s : s ≠ "" → truthy (VStr s) = true.
Proof. intros Hs. simpl. by destruct (String.eqb_spec s ""). Qed.

Lemma JSON_parse_nonempty s v : JSON_parse s = Some v → s ≠ "".
Proof. intros E ->. by rewrite JSON_parse_empty in E. Qed.

(** The legacy branch, taken: [filters] is falsy after parsing and
    [filter] is a non-empty string. *)
Lemma legacy_taken parsed f :
  truthy (prop (parsed_objects parsed) "filters") = false →
  parsed !! "filter" = Some (VStr f) → f ≠ "" →
  parseQueryFromLocation parsed =
    delete "filter"
      match JSON_parse f with
      | Some filterObject =>
          match toFilterItems filterObject with
          | Some items => <["filters" := items]> (parsed_objects parsed)
          | None => parsed_objects parsed
          end
      | None => parsed_objects parsed
      end.
Proof.
  intros Hfs Hf Hne. rewrite parseQueryFromLocation_unfold. cbv zeta.
  assert (prop (parsed_objects parsed) "filter" = VStr f) as ->.
  { apply prop_lookup. by rewrite parsed_objects_other. }
  by rewrite Hfs, string_nonempty_truthy.
Qed.

(** The legacy branch, not taken. *)
Lemma legacy_skipped parsed :
  truthy (prop (parsed_objects parsed) "filters") = true →
  parseQueryFromLocation parsed = parsed_objects parsed.
Proof. intros Hfs. rewrite parseQueryFromLocation_unfold. cbv zeta. by rewrite Hfs. Qed.

Lemma legacy_absent parsed :
  parsed !! "filter" = None →
  parseQueryFromLocation parsed = parsed_objects parsed.
Proof.
  intros Hf. rewrite parseQueryFromLocation_unfold. cbv zeta.
  assert (prop (parsed_objects parsed) "filter" = VUndefined) as ->.
  { apply prop_missing. by rewrite parsed_objects_other. }
  by rewrite andb_false_r.
Qed.

Lemma legacy_not_taken parsed v :
  parsed !! "filter" = Some v → truthy v && is_string v = false →
  parseQueryFromLocation parsed = parsed_objects parsed.
Proof.
  intros Hf Hv. rewrite parseQueryFromLocation_unfold. cbv zeta.
  rewrite (prop_lookup _ "filter" v) by (by rewrite parsed_objects_other).
  by rewrite <- andb_assoc, Hv, andb_false_r.
Qed.

(** C7. A query whose only key that carries filters is the deprecated
    [filter], holding the text of a JSON object, is given a [filters]
    list with one item per key of the object, in the order of the keys:
    the object [{ field: key, operator: "=", value: the value the object
    has at that key }]; [filter] itself is not in the result. *)
Theorem legacy_filter_converted parsed (s : string) (kvs : list (string * JsVal)) :
  parsed !! "filters" = None →
  parsed !! "filter" = Some (VStr s) →
  JSON_parse s = Some (VObj kvs) →
  let R := parseQueryFromLocation parsed in
  R !! "filters" =
    Some (VArr (map (fun name =>
                       VObj [("field", VStr name); ("operator", VStr "=");
                             ("value", assoc name kvs)])
                  (map fst kvs))) ∧
  (NoDup (map fst kvs) →
     R !! "filters" =
       Some (VArr (map (fun kv =>
                          VObj [("field", VStr kv.1); ("operator", VStr "=");
                                ("value", kv.2)])
                     kvs))) ∧
  R !! "filter" = None.
Proof.
  intros Hfs Hf Hs R.
  assert (R !! "filters" =
    Some (VArr (map (fun name => filterItem name (assoc name kvs)) (map fst kvs))) ∧
    R !! "filter" = None) as [H1 H2].
  { subst R. rewrite (legacy_taken parsed s).
    - rewrite Hs. simpl. split.
      + by rewrite lookup_delete_ne, lookup_insert_eq.
      + by rewrite lookup_delete_eq.
    - rewrite (prop_missing _ "filters"); [done|].
      by rewrite parsed_objects_filters, Hfs.
    - done.
    - by eapply JSON_parse_nonempty. }
  split; [exact H1|]. split; [|done].
  intros Hnd. rewrite H1, map_assoc_NoDup by done. reflexivity.
Qed.

End ParsingFacts.

Lemma legacy_filter_converted_witness :
  parseQueryFromLocation (B := MiniJSON.builtins)
    {["filter" :=
        VStr ("{" ++ MiniJSON.quote "published" ++ ":true}")]} !! "filters"
  = Some (VArr [VObj [("field", VStr "published"); ("operator", VStr "=");
                      ("value", VBool true)]]).
Proof.
  refine (proj1 (legacy_filter_converted (B := MiniJSON.builtins)
    {["filter" := VStr ("{" ++ MiniJSON.quote "published" ++ ":true}")]}
    ("{" ++ MiniJSON.quote "published" ++ ":true}")
    [("published", VBool true)] _ _ _)); by vm_compute.
Defined.

(** ** Malformed JSON in the location *)

Section MalformedFacts.
Context {B : Builtins}.
Implicit Types (parsed : gmap string JsVal).

Lemma malformed_filters_falsy parsed s :
  parsed !! "filters" = Some (VStr s) → s ≠ "" → JSON_parse s = None →
  parsed_objects parsed !! "filters" = None.
Proof.
  intros E Hs Hp. rewrite parsed_objects_filters, E.
  by destruct (String.eqb_spec s "").
Qed.

Lemma getQuery_sort_present q params fdv (s : SortPayload) (pp : Num) :
  is_Some (getQuery q params fdv s pp !! "sort").
Proof.
  rewrite getQuery_lookup_other by done. rewrite defaults_sort.
  unfold prop. destruct (getQuery_base q params fdv !! "sort"); simpl.
  - by destruct (truthy _).
  - done.
Qed.

Lemma legacy_keeps_displayedFilters parsed :
  parseQueryFromLocation parsed !! "displayedFilters"
  = parsed_objects parsed !! "displayedFilters".
Proof.
  rewrite parseQueryFromLocation_unfold. cbv zeta.
  destruct (_ && _); [|done]. rewrite lookup_delete_ne by done.
  destruct (prop _ "filter") as [| |?|?|f|?|?]; try done.
  destruct (JSON_parse f) as [o|]; [|done].
  destruct (toFilterItems o); [|done]. by rewrite lookup_insert_ne.
Qed.

(** [filters] when it is falsy after the two calls of [parseObject]: a
    legacy [filter] that parses gives its items, anything else leaves
    what was there. *)
Lemma legacy_filters_result parsed :
  truthy (prop (parsed_objects parsed) "filters") = false →
  parseQueryFromLocation parsed !! "filters" =
    match parsed !! "filter" with
    | Some (VStr f) =>
        match JSON_parse f with
        | Some o =>
            match toFilterItems o with
            | Some items => Some items
            | None => parsed_objects parsed !! "filters"
            end
        | None => parsed_objects parsed !! "filters"
        end
    | _ => parsed_objects parsed !! "filters"
    end.
Proof.
  intros Hft. destruct (parsed !! "filter") as [v|] eqn:Ef.
  - destruct (truthy v && is_string v) eqn:Hv.
    + destruct v as [| |?|?|f|?|?]; simpl in Hv;
        rewrite ?andb_false_r in Hv; try done.
      assert (f ≠ "") as Hf by (intros ->; done).
      rewrite (legacy_taken _ f Hft Ef Hf).
      rewrite lookup_delete_ne by done.
      destruct (JSON_parse f) as [o|]; [|done].
      destruct (toFilterItems o); [|done]. by rewrite lookup_insert_eq.
    + rewrite (legacy_not_taken _ _ Ef Hv).
      destruct v as [| |?|?|f|?|?]; try done.
      destruct (JSON_parse f) as [o|] eqn:Eo; [|done].
      apply JSON_parse_nonempty in Eo.
      simpl in Hv. rewrite andb_true_r in Hv.
      by destruct (String.eqb_spec f "").
  - by rewrite (legacy_absent _ Ef).
Qed.

(** C8, as the code has it. A [displayedFilters] value that is a
    non-empty string and is not JSON is removed from the result. A
    [filters] value of that kind is removed as well; the result then has
    [filters] only when a legacy [filter] supplies them. The empty string,
    which is not JSON either, is not removed: [displayedFilters] stays the
    empty string, and [filters] stays the empty string unless a legacy
    [filter] supplies filters in its place. A legacy [filter] that is a
    non-empty string and is not JSON is removed when [filters] is
    missing, empty or was malformed too. Nothing is thrown: the failures
    of [JSON.parse] and [Object.keys] end in these results, and [getQuery]
    on the parsed query always returns parameters that have [page],
    [perPage] and [sort]. *)
Theorem malformed_json_dropped parsed :
  let R := parseQueryFromLocation parsed in
  (∀ s, parsed !! "displayedFilters" = Some (VStr s) → s ≠ "" →
        JSON_parse s = None →
        R !! "displayedFilters" = None) ∧
  (parsed !! "displayedFilters" = Some (VStr "") →
     R !! "displayedFilters" = Some (VStr "")) ∧
  (∀ s, parsed !! "filters" = Some (VStr s) → s ≠ "" →
        JSON_parse s = None →
        R !! "filters" =
          match parsed !! "filter" with
          | Some (VStr f) =>
              match JSON_parse f with
              | Some o => toFilterItems o
              | None => None
              end
          | _ => None
          end) ∧
  (parsed !! "filters" = Some (VStr "") →
     R !! "filters" =
       match parsed !! "filter" with
       | Some (VStr f) =>
           match JSON_parse f with
           | Some o =>
               match toFilterItems o with
               | Some items => Some items
               | None => Some (VStr "")
               end
           | None => Some (VStr "")
           end
       | _ => Some (VStr "")
       end) ∧
  (∀ f, parsed !! "filter" = Some (VStr f) → f ≠ "" →
        JSON_parse f = None →
        parsed !! "filters" = None
        ∨ (∃ s, parsed !! "filters" = Some (VStr s) ∧ s ≠ ""
                ∧ JSON_parse s = None) →
        R !! "filter" = None ∧ R !! "filters" = None) ∧
  (∀ f, parsed !! "filter" = Some (VStr f) → f ≠ "" →
        JSON_parse f = None →
        parsed !! "filters" = Some (VStr "") →
        R !! "filter" = None ∧ R !! "filters" = Some (VStr "")) ∧
  (∀ params fdv (s : SortPayload) (pp : Num),
     let G := getQuery R params fdv s pp in
     is_Some (G !! "page") ∧ is_Some (G !! "perPage") ∧ is_Some (G !! "sort")).
Proof.
  intros R. split; [|split; [|split; [|split; [|split; [|split]]]]].
  - intros s E Hs Hp. subst R.
    rewrite legacy_keeps_displayedFilters, parsed_objects_displayedFilters, E.
    by destruct (String.eqb_spec s "").
  - intros E. subst R.
    by rewrite legacy_keeps_displayedFilters, parsed_objects_displayedFilters, E.
  - intros s E Hs Hp.
    pose proof (malformed_filters_falsy _ _ E Hs Hp) as Hfs.
    subst R. rewrite legacy_filters_result
      by (by rewrite (prop_missing _ _ Hfs)).
    rewrite Hfs. destruct (parsed !! "filter") as [[| |?|?|f|?|?]|]; try done.
    destruct (JSON_parse f) as [o|]; [|done]. by destruct (toFilterItems o).
  - intros E.
    assert (parsed_objects parsed !! "filters" = Some (VStr "")) as Hfs
      by (by rewrite parsed_objects_filters, E).
    subst R. rewrite legacy_filters_result
      by (by rewrite (prop_lookup _ _ _ Hfs)).
    by rewrite Hfs.
  - intros f Ef Hf Hp Hfs.
    assert (parsed_objects parsed !! "filters" = None) as Hn.
    { destruct Hfs as [E|(s & E & Hs & Hps)].
      - by rewrite parsed_objects_filters, E.
      - by eapply malformed_filters_falsy. }
    subst R. rewrite (legacy_taken _ f); [|by rewrite (prop_missing _ _ Hn)|done..].
    rewrite Hp. by rewrite lookup_delete_eq, lookup_delete_ne.
  - intros f Ef Hf Hp E.
    assert (parsed_objects parsed !! "filters" = Some (VStr "")) as Hfs
      by (by rewrite parsed_objects_filters, E).
    subst R. rewrite (legacy_taken _ f);
      [|by rewrite (prop_lookup _ _ _ Hfs)|done..].
    rewrite Hp. by rewrite lookup_delete_eq, lookup_delete_ne.
  - intros params fdv s pp G. subst G.
    rewrite getQuery_page, getQuery_perPage.
    repeat split; try by eexists. apply getQuery_sort_present.
Qed.

End MalformedFacts.

(** C8, as stated, fails: with [?filters=] the value is the empty string,
    which is not JSON, and [filters] stays in the result. *)
Lemma malformed_json_dropped_counterexample :
  ¬ (∀ (parsed : gmap string JsVal) (s : string),
       parsed !! "filters" = Some (VStr s) →
       JSON_parse (Builtins := MiniJSON.builtins) s = None →
       parseQueryFromLocation (B := MiniJSON.builtins) parsed !! "filters" = None).
Proof.
  intros Hclaim.
  specialize (Hclaim {["filters" := VStr ""]} "" eq_refl eq_refl).
  vm_compute in Hclaim. discriminate Hclaim.
Qed.

Lemma malformed_json_dropped_witness :
  parseQueryFromLocation (B := MiniJSON.builtins)
    {["displayedFilters" := VStr "{oops"]} !! "displayedFilters" = None.
Proof.
  refine (proj1 (malformed_json_dropped (B := MiniJSON.builtins)
    {["displayedFilters" := VStr "{oops"]}) "{oops" _ _ _); by vm_compute.
Defined.

(** ** The page and perPage of the resolved parameters *)

Section PositivityFacts.
Context {B : Builtins}.

Lemma getNumberOrDefault_scalar (v : JsVal) (d : Z) :
  scalar v = true → nullish v = false →
  ∃ z, getNumberOrDefault v (Int d) = VNum (Int z)
       ∧ (1 <= d → (1 <= z ↔ reads_positive v = true)).
Proof.
  destruct v as [| |b|[|n]|t|l|l]; try done; intros _ _.
  - exists d. split; [done|]. intros Hd. simpl. by split.
  - exists n. split; [done|]. intros _. simpl. by rewrite Z.leb_le.
  - rewrite getNumberOrDefault_string. simpl.
    destruct (parseInt t) as [|z].
    + exists d. split; [done|]. by split.
    + exists z. split; [done|]. intros _. by rewrite Z.leb_le.
Qed.

(** C5, as the code has it. When the base carries page and perPage as
    strings, numbers or not at all, the resolved page and perPage are
    numbers, never [NaN]: the number the base carries, the integer its
    string reads as, or the fallback (1 for page; for perPage the caller's
    default, or 10) when the value is missing or does not read as a
    number. So page is at least 1 exactly when the base's page is missing,
    is not a number or reads as an integer that is at least 1, and perPage
    likewise; a numeral below 1 is returned as it is, and the result then
    breaks the invariant of the data model. *)
Theorem getQuery_page_perPage (q : gmap string JsVal)
    (params : option (gmap string JsVal)) (fdv : JsVal) (s : SortPayload)
    (pp : Num) :
  let base := getQuery_base q params fdv in
  let R := getQuery q params fdv s pp in
  let page := prop base "page" in
  let perPage :=
    if nullish (prop base "perPage") then VNum pp else prop base "perPage" in
  (scalar page = true →
     ∃ z, R !! "page" = Some (VNum (Int z))
          ∧ (1 <= z ↔ reads_positive page = true)) ∧
  (scalar perPage = true →
     ∃ z, R !! "perPage" = Some (VNum (Int z))
          ∧ (1 <= z ↔ reads_positive perPage = true)) ∧
  (scalar page = true → scalar perPage = true →
     (valid_ParameterSet R ↔
        reads_positive page = true ∧ reads_positive perPage = true)) ∧
  (∀ z, page = VNum (Int z) → R !! "page" = Some (VNum (Int z))) ∧
  (∀ t z, page = VStr t → parseInt t = Int z → safe_integer z →
     R !! "page" = Some (VNum (Int z))) ∧
  (nullish page = true ∨ page = VNum NaN
   ∨ (∃ t, page = VStr t ∧ parseInt t = NaN) →
     R !! "page" = Some (VNum (Int 1))) ∧
  (∀ z, perPage = VNum (Int z) → R !! "perPage" = Some (VNum (Int z))) ∧
  (∀ t z, perPage = VStr t → parseInt t = Int z → safe_integer z →
     R !! "perPage" = Some (VNum (Int z))) ∧
  (perPage = VNum NaN ∨ (∃ t, perPage = VStr t ∧ parseInt t = NaN) →
     R !! "perPage" = Some (VNum (Int 10))) ∧
  (∀ z, z < 1 →
     page = VNum (Int z)
     ∨ (∃ t, page = VStr t ∧ parseInt t = Int z ∧ safe_integer z) →
     R !! "page" = Some (VNum (Int z)) ∧ ¬ valid_ParameterSet R) ∧
  (∀ z, z < 1 →
     perPage = VNum (Int z)
     ∨ (∃ t, perPage = VStr t ∧ parseInt t = Int z ∧ safe_integer z) →
     R !! "perPage" = Some (VNum (Int z)) ∧ ¬ valid_ParameterSet R).
Proof.
  intros base R page perPage.
  assert (R !! "page" =
            Some (getNumberOrDefault
                    (if nullish page then VNum (Int 1) else page) (Int 1)))
    as Epage by apply getQuery_page.
  assert (R !! "perPage" = Some (getNumberOrDefault perPage (Int 10)))
    as EperPage by apply getQuery_perPage.
  assert (nullish perPage = false) as Hn.
  { subst perPage. by destruct (nullish (prop base "perPage")) eqn:E. }
  assert (scalar page = true →
     ∃ z, R !! "page" = Some (VNum (Int z))
          ∧ (1 <= z ↔ reads_positive page = true)) as Hpage.
  { intros Hs. rewrite Epage.
    destruct (nullish page) eqn:Hnp.
    - exists 1. split; [done|]. by destruct page.
    - destruct (getNumberOrDefault_scalar page 1 Hs Hnp) as (z & -> & Hz).
      exists z. split; [done|]. by apply Hz. }
  assert (scalar perPage = true →
     ∃ z, R !! "perPage" = Some (VNum (Int z))
          ∧ (1 <= z ↔ reads_positive perPage = true)) as HperPage.
  { intros Hs. rewrite EperPage.
    destruct (getNumberOrDefault_scalar perPage 10 Hs Hn) as (z & -> & Hz).
    exists z. split; [done|]. by apply Hz. }
  assert (∀ z, page = VNum (Int z) → R !! "page" = Some (VNum (Int z)))
    as Pnum.
  { intros z E. by rewrite Epage, E. }
  assert (∀ t z, page = VStr t → parseInt t = Int z →
            R !! "page" = Some (VNum (Int z))) as Pstr.
  { intros t z E Ez. rewrite Epage, E. cbn [nullish].
    by rewrite getNumberOrDefault_string, Ez. }
  assert (∀ z, perPage = VNum (Int z) → R !! "perPage" = Some (VNum (Int z)))
    as PPnum.
  { intros z E. by rewrite EperPage, E. }
  assert (∀ t z, perPage = VStr t → parseInt t = Int z →
            R !! "perPage" = Some (VNum (Int z))) as PPstr.
  { intros t z E Ez. rewrite EperPage, E.
    by rewrite getNumberOrDefault_string, Ez. }
  split; [done|]. split; [done|]. split.
  { intros Hs1 Hs2.
    destruct (Hpage Hs1) as (z1 & E1 & Hz1), (HperPage Hs2) as (z2 & E2 & Hz2).
    unfold valid_ParameterSet. rewrite <- Hz1, <- Hz2. split.
    - intros (p & p' & Hp & ? & Hp' & ?). rewrite E1 in Hp. rewrite E2 in Hp'.
      by simplify_eq.
    - intros [? ?]. by exists z1, z2. }
  split; [done|]. split; [by eauto|]. split.
  { rewrite Epage. intros [Hnp|[E|(t & E & Et)]].
    - by rewrite Hnp.
    - by rewrite E.
    - rewrite E. cbn [nullish]. by rewrite getNumberOrDefault_string, Et. }
  split; [done|]. split; [by eauto|]. split.
  { rewrite EperPage. intros [E|(t & E & Et)].
    - by rewrite E.
    - rewrite E. by rewrite getNumberOrDefault_string, Et. }
  split.
  - intros z Hz Hcase.
    assert (R !! "page" = Some (VNum (Int z))) as E.
    { destruct Hcase as [E|(t & E & Et & _)]; eauto. }
    split; [done|]. intros (p & p' & Hp & Hle & _).
    rewrite E in Hp. simplify_eq. lia.
  - intros z Hz Hcase.
    assert (R !! "perPage" = Some (VNum (Int z))) as E.
    { destruct Hcase as [E|(t & E & Et & _)]; eauto. }
    split; [done|]. intros (p & p' & _ & _ & Hp & Hle).
    rewrite E in Hp. simplify_eq. lia.
Qed.

End PositivityFacts.

(** C5, as stated, fails: [?page=0] resolves to page 0. *)
Lemma getQuery_page_perPage_counterexample :
  ¬ valid_ParameterSet
      (getQuery (B := MiniJSON.builtins)
         (parseQueryFromLocation (B := MiniJSON.builtins) {["page" := VStr "0"]})
         None VUndefined {| field := "id"; order := "ASC" |} (Int 10)).
Proof.
  intros (p & pp & Hp & Hle & _). vm_compute in Hp.
  injection Hp as <-. by apply Hle.
Qed.

Lemma getQuery_page_perPage_witness :
  let R :=
    getQuery (B := MiniJSON.builtins)
      {["page" := VStr "-5"]} None VUndefined
      {| field := "id"; order := "ASC" |} (Int 10) in
  R !! "page" = Some (VNum (Int (-5))) ∧ ¬ valid_ParameterSet R.
Proof.
  pose proof (getQuery_page_perPage (B := MiniJSON.builtins)
                {["page" := VStr "-5"]} None VUndefined
                {| field := "id"; order := "ASC" |} (Int 10))
    as (_ & _ & _ & _ & _ & _ & _ & _ & _ & Hlow & _).
  apply (Hlow (-5)); [done|].
  right. exists "-5". by vm_compute.
Defined.

(** ** The batcher *)

Section BatcherFacts.
Context {B : Builtins} {Rd : Reducer}.
Implicit Types (query p : gmap string JsVal) (a : Action) (es : list Effect).

Lemma submit_accumulating query rest p (ts : list Action) es :
  submit query rest {| tempParams := Some p; timers := ts; effects := es |} =
    {| tempParams := Some (foldl queryReducer p rest); timers := ts;
       effects := es |}.
Proof.
  revert p. induction rest as [|a rest IH]; intros p; [done|].
  unfold submit in *. simpl. apply IH.
Qed.

Lemma submit_from_idle query a rest es :
  submit query (a :: rest) (idle es) =
    {| tempParams := Some (foldl queryReducer query (a :: rest));
       timers := [a]; effects := es |}.
Proof. unfold submit, idle. simpl. apply submit_accumulating. Qed.

(** The effect of the one flush of a batch. *)
Lemma tick_from_idle (disableSync : bool) query a rest es :
  tick disableSync query (a :: rest) (idle es) =
    idle (es ++
            [if disableSync
             then SetLocalParams (Some (foldl queryReducer query (a :: rest)))
             else Navigate (searchParams (foldl queryReducer query (a :: rest)))
                    (String.eqb (type a) SET_PAGE)]).
Proof.
  unfold tick. rewrite submit_from_idle. unfold run_timers, flush, idle. simpl.
  by destruct disableSync.
Qed.

(** C2. The actions given to [changeParams] in one tick, however many,
    schedule one flush and it runs once: after the calls one timer is
    pending; after the tick exactly one effect has been added, none is
    pending, and the parameters it commits are the reducer folded over the
    query with the actions in call order. With a reducer whose set-page
    action sets the page, [setPage(2)] then [setPage(5)] in one tick give
    one flush with page 5. *)
Theorem one_flush_per_tick (disableSync : bool) query a rest es :
  let pending := foldl queryReducer query (a :: rest) in
  let commit (p : gmap string JsVal) :=
    if disableSync then SetLocalParams (Some p)
    else Navigate (searchParams p) (String.eqb (type a) SET_PAGE) in
  timers (submit query (a :: rest) (idle es)) = [a] ∧
  tick disableSync query (a :: rest) (idle es) = idle (es ++ [commit pending]) ∧
  ((∀ p n, queryReducer p (setPage n) !! "page" = Some n) →
   ∃ p5,
     tick disableSync query [setPage (VNum (Int 2)); setPage (VNum (Int 5))]
       (idle es)
     = idle (es ++ [if disableSync then SetLocalParams (Some p5)
                    else Navigate (searchParams p5) true])
     ∧ p5 !! "page" = Some (VNum (Int 5))).
Proof.
  intros pending commit. split; [|split].
  - by rewrite submit_from_idle.
  - by rewrite tick_from_idle.
  - intros Hpage. eexists. split.
    + rewrite tick_from_idle. simpl. by rewrite String.eqb_refl.
    + apply Hpage.
Qed.

(** C9. A batch flushed with the location in sync makes exactly one call
    of [navigate]; its search is the pending parameters with [filters]
    and [displayedFilters] each replaced by the text [JSON.stringify]
    gives for it ([undefined] when it gives none), and its scroll-to-top
    flag is true if and only if the first action of the batch is a
    set-page action, whatever the later ones are. *)
Theorem navigation_of_batch query a rest es :
  let pending := foldl queryReducer query (a :: rest) in
  ∃ search scroll,
    effects (tick false query (a :: rest) (idle es))
    = (es ++ [Navigate search scroll])%list ∧
    search !! "filters" =
      Some (match JSON_stringify (prop pending "filters") with
            | Some text => VStr text
            | None => VUndefined
            end) ∧
    search !! "displayedFilters" =
      Some (match JSON_stringify (prop pending "displayedFilters") with
            | Some text => VStr text
            | None => VUndefined
            end) ∧
    (∀ k, k ≠ "filters" → k ≠ "displayedFilters" → search !! k = pending !! k) ∧
    (scroll = true ↔ type a = SET_PAGE) ∧
    (∀ rest', ∃ search',
       effects (tick false query (a :: rest') (idle es))
       = (es ++ [Navigate search' scroll])%list).
Proof.
  intros pending. do 2 eexists. split; [by rewrite tick_from_idle|].
  unfold searchParams. repeat split.
  - by rewrite lookup_insert_ne, lookup_insert_eq.
  - by rewrite lookup_insert_eq.
  - intros k ? ?. by rewrite !lookup_insert_ne.
  - by intros ?%String.eqb_eq.
  - by intros ?%String.eqb_eq.
  - intros rest'. eexists. by rewrite tick_from_idle.
Qed.

End BatcherFacts.

Lemma navigation_of_batch_witness :
  ∃ search scroll,
    effects
      (tick (B := MiniJSON.builtins) (Rd := SpecReducer.reducer) false
         {["filters" := VArr [VStr "a"; VNum (Int 1)]]}
         [setPage (Rd := SpecReducer.reducer) (VNum (Int 2))] (idle []))
    = [Navigate search scroll] ∧
    search !! "filters"
    = Some (VStr ("[" ++ MiniJSON.quote "a" ++ ",1]")) ∧
    search !! "displayedFilters" = Some VUndefined ∧
    search !! "page" = Some (VNum (Int 2)) ∧
    scroll = true.
Proof.
  destruct (navigation_of_batch (B := MiniJSON.builtins)
              (Rd := SpecReducer.reducer)
              {["filters" := VArr [VStr "a"; VNum (Int 1)]]}
              (setPage (Rd := SpecReducer.reducer) (VNum (Int 2))) [] [])
    as (search & scroll & He & Hf & Hd & Hk & Hs & _).
  exists search, scroll. split; [exact He|].
  split; [exact Hf|]. split; [exact Hd|]. split.
  - rewrite Hk by done. reflexivity.
  - by apply Hs.
Defined.

Lemma one_flush_per_tick_witness :
  ∃ p5,
    tick (B := MiniJSON.builtins) (Rd := SpecReducer.reducer) false ∅
      [setPage (Rd := SpecReducer.reducer) (VNum (Int 2));
       setPage (Rd := SpecReducer.reducer) (VNum (Int 5))] (idle [])
    = idle ([] ++ [Navigate (searchParams (B := MiniJSON.builtins) p5) true])
    ∧ p5 !! "page" = Some (VNum (Int 5)).
Proof.
  refine (proj2 (proj2 (one_flush_per_tick (B := MiniJSON.builtins)
    (Rd := SpecReducer.reducer) false ∅
    (setPage (Rd := SpecReducer.reducer) (VNum (Int 2))) [] [])) _).
  intros p n. unfold queryReducer, setPage. simpl. unfold SpecReducer.reduce.
  simpl. apply lookup_insert_eq.
Defined.

(** ** Decimal numerals read back *)

Lemma digits_acc_uint (d : Decimal.uint) (p : positive) :
  digits (Some (Z.pos p)) (NilEmpty.string_of_uint d)
  = Some (Z.pos (Pos.of_uint_acc d p)).
Proof.
  revert p. induction d; intros p; simpl; [done|..]; rewrite <- IHd; do 2 f_equal; lia.
Qed.

Lemma digits_zero_uint (d : Decimal.uint) :
  digits (Some 0) (NilEmpty.string_of_uint d) = Some (Z.of_N (Pos.of_uint d)).
Proof.
  induction d; simpl; try done;
    match goal with |- _ = Some (Z.pos (Pos.of_uint_acc _ ?p)) => exact (digits_acc_uint d p) end.
Qed.

Lemma digits_uint (d : Decimal.uint) :
  digits None (NilZero.string_of_uint d) = Some (Z.of_N (Pos.of_uint d)).
Proof.
  destruct d; try done;
    match goal with |- digits None (_ ?u) = _ => exact (digits_zero_uint u) end.
Qed.

Lemma parseInt_toString (z : Z) : parseInt (Number_toString (Int z)) = Int z.
Proof.
  rewrite <- (DecimalZ.of_to z) at 2. unfold Number_toString.
  destruct (Z.to_int z) as [d|d]; simpl.
  - pose proof (digits_uint d) as Hd. unfold parseInt.
    destruct d; simpl in *; try (by rewrite Hd); done.
  - unfold parseInt. simpl. rewrite digits_uint. done.
Qed.

(** ** Serialising and resolving again *)

Section RoundTrip.
Context {B : Builtins}.

(** The query of a render is [getQuery] on the parsed query of the
    location, or on the empty object when the location is not in sync. *)
Lemma useListParams_query_getQuery (o : ListParamsOptions)
    (parsed : gmap string JsVal) (stored : option (gmap string JsVal)) :
  ∃ fdv,
    useListParams_query o parsed stored =
      getQuery
        (if disableSyncWithLocation o then ∅ else parseQueryFromLocation parsed)
        stored fdv (opt_sort o) (opt_perPage o).
Proof. by eexists. Qed.

Lemma location_query_lookup (o : gmap string JsVal) k :
  location_query o !! k = o !! k ≫= qs_value.
Proof. apply lookup_omap. Qed.

(** What the navigation of a flush leaves in the location for the typed
    parameters [P]. *)
Lemma serialized_lookup (P : ParameterSet) :
  let url := location_query (searchParams (toParams P)) in
  url !! "page" = Some (VStr (Number_toString (Int (ps_page P)))) ∧
  url !! "perPage" = Some (VStr (Number_toString (Int (ps_perPage P)))) ∧
  url !! "sort" = Some (VStr (ps_sort P)) ∧
  url !! "order" = Some (VStr (ps_order P)) ∧
  url !! "filters" = qs_value (json (VArr (ps_filters P))) ∧
  url !! "displayedFilters" = qs_value (json (ps_displayedFilters P)) ∧
  url !! "filter" = None.
Proof.
  intros url. subst url. rewrite !location_query_lookup.
  unfold searchParams, toParams, prop. by simplify_map_eq.
Qed.

(** C3, as the code has it. For parameters [P] whose page and perPage are
    safe integers, whose sort field is not empty and whose filters survive
    [JSON.stringify] then [JSON.parse],
    resolving the query that the flush of [P] leaves in the location gives
    back the page, perPage, sort, order and filters of [P];
    displayedFilters comes back when it survives JSON too and is missing
    when it has no JSON text. *)
Theorem serialize_resolve_roundtrip (P : ParameterSet)
    (stored : option (gmap string JsVal)) (fdv : JsVal) (s : SortPayload)
    (pp : Num) (text : string) :
  safe_integer (ps_page P) → safe_integer (ps_perPage P) →
  ps_sort P ≠ "" →
  JSON_stringify (VArr (ps_filters P)) = Some text →
  JSON_parse text = Some (VArr (ps_filters P)) →
  let url := location_query (searchParams (toParams P)) in
  let G := getQuery (parseQueryFromLocation url) stored fdv s pp in
  G !! "page" = Some (VNum (Int (ps_page P))) ∧
  G !! "perPage" = Some (VNum (Int (ps_perPage P))) ∧
  G !! "sort" = Some (VStr (ps_sort P)) ∧
  G !! "order" = Some (VStr (ps_order P)) ∧
  G !! "filters" = Some (VArr (ps_filters P)) ∧
  (∀ d, JSON_stringify (ps_displayedFilters P) = Some d →
        JSON_parse d = Some (ps_displayedFilters P) →
        G !! "displayedFilters" = Some (ps_displayedFilters P)) ∧
  (JSON_stringify (ps_displayedFilters P) = None →
     G !! "displayedFilters" = None).
Proof.
  intros _ _ Hsort Htext Hparse url G.
  destruct (serialized_lookup P) as (Upage & UperPage & Usort & Uorder & Ufs & Udf & Uf).
  fold url in Upage, UperPage, Usort, Uorder, Ufs, Udf, Uf.
  unfold json in Ufs. rewrite Htext in Ufs. simpl in Ufs.
  pose proof (JSON_parse_nonempty _ _ Hparse) as Hne.
  assert (parsed_objects url !! "filters" = Some (VArr (ps_filters P))) as Qfs.
  { rewrite parsed_objects_filters, Ufs. by destruct (String.eqb_spec text ""). }
  assert (parseQueryFromLocation url = parsed_objects url) as HR.
  { apply legacy_skipped. by rewrite (prop_lookup _ _ _ Qfs). }
  set (R := parseQueryFromLocation url) in *.
  assert (R !! "page" = url !! "page") as Rpage
    by (by rewrite HR, parsed_objects_other).
  assert (R !! "perPage" = url !! "perPage") as RperPage
    by (by rewrite HR, parsed_objects_other).
  assert (R !! "sort" = url !! "sort") as Rsort
    by (by rewrite HR, parsed_objects_other).
  assert (R !! "order" = url !! "order") as Rorder
    by (by rewrite HR, parsed_objects_other).
  assert (getQuery_base R stored fdv = R) as Hbase.
  { unfold getQuery_base. rewrite (has_keys_lookup R "page"); [done|].
    rewrite Rpage, Upage. by eexists. }
  subst G. split; [|split; [|split; [|split; [|split; [|split]]]]].
  - rewrite getQuery_page, Hbase.
    rewrite (prop_lookup R "page" _ (eq_trans Rpage Upage)). cbn [nullish].
    by rewrite getNumberOrDefault_string, parseInt_toString.
  - rewrite getQuery_perPage, Hbase.
    rewrite (prop_lookup R "perPage" _ (eq_trans RperPage UperPage)). cbn [nullish].
    by rewrite getNumberOrDefault_string, parseInt_toString.
  - rewrite getQuery_lookup_other, defaults_sort, Hbase by done.
    rewrite (prop_lookup R "sort" _ (eq_trans Rsort Usort)).
    by rewrite string_nonempty_truthy, Rsort.
  - rewrite getQuery_lookup_other, defaults_order, Hbase by done.
    rewrite (prop_lookup R "sort" _ (eq_trans Rsort Usort)).
    by rewrite string_nonempty_truthy, Rorder.
  - rewrite getQuery_lookup_other, defaults_other, Hbase by done.
    by rewrite HR.
  - intros d Hd Hpd.
    rewrite getQuery_lookup_other, defaults_other, Hbase by done.
    rewrite HR, parsed_objects_displayedFilters, Udf. unfold json. rewrite Hd.
    simpl. pose proof (JSON_parse_nonempty _ _ Hpd).
    by destruct (String.eqb_spec d "").
  - intros Hd.
    rewrite getQuery_lookup_other, defaults_other, Hbase by done.
    rewrite HR, parsed_objects_displayedFilters, Udf. unfold json. by rewrite Hd.
Qed.

End RoundTrip.

(** C3, as stated, fails: parameters with page 1, perPage 10 and an
    empty sort field satisfy the invariant of the data model, and come
    back with the default sort field and order. *)
Lemma serialize_resolve_roundtrip_counterexample :
  ¬ (∀ P : ParameterSet,
       valid_ParameterSet (toParams P) →
       let url :=
         location_query (searchParams (B := MiniJSON.builtins) (toParams P)) in
       let G :=
         getQuery (B := MiniJSON.builtins)
           (parseQueryFromLocation (B := MiniJSON.builtins) url)
           None VUndefined {| field := "id"; order := "ASC" |} (Int 10) in
       G !! "sort" = Some (VStr (ps_sort P))
       ∧ G !! "order" = Some (VStr (ps_order P))).
Proof.
  intros Hclaim.
  destruct (Hclaim {| ps_page := 1; ps_perPage := 10; ps_sort := "";
                      ps_order := "DESC"; ps_filters := [];
                      ps_displayedFilters := VObj [] |}) as [Hs _].
  - exists 1, 10. by vm_compute.
  - vm_compute in Hs. discriminate Hs.
Qed.

Lemma serialize_resolve_roundtrip_witness :
  getQuery (B := MiniJSON.builtins)
    (parseQueryFromLocation (B := MiniJSON.builtins)
       (location_query
          (searchParams (B := MiniJSON.builtins)
             (toParams {| ps_page := 3; ps_perPage := 25; ps_sort := "name";
                          ps_order := "DESC";
                          ps_filters := [filterItem "published" (VBool true)];
                          ps_displayedFilters := VObj [] |}))))
    None VUndefined {| field := "id"; order := "ASC" |} (Int 10) !! "filters"
  = Some (VArr [filterItem "published" (VBool true)]).
Proof.
  refine (proj1 (proj2 (proj2 (proj2 (proj2
    (serialize_resolve_roundtrip (B := MiniJSON.builtins)
       {| ps_page := 3; ps_perPage := 25; ps_sort := "name";
          ps_order := "DESC";
          ps_filters := [filterItem "published" (VBool true)];
          ps_displayedFilters := VObj [] |}
       None VUndefined {| field := "id"; order := "ASC" |} (Int 10)
       (default "" (MiniJSON.stringify
                      (VArr [filterItem "published" (VBool true)])))
       _ _ _ _ _)))))); by vm_compute.
Defined.

(** * Further properties of the code *)

(** ** [getNumberOrDefault] *)

Section CoercionFacts.
Context {B : Builtins}.

Lemma getNumberOrDefault_other (v : JsVal) (d : Num) :
  is_string v = false →
  getNumberOrDefault v d = if isNaN v then VNum d else v.
Proof. by destruct v. Qed.

Lemma getNumberOrDefault_not_nullish (v : JsVal) (d : Num) :
  nullish v = false → nullish (getNumberOrDefault v d) = false.
Proof.
  intros Hv. destruct (is_string v) eqn:Hs.
  - destruct v; try done. by rewrite getNumberOrDefault_string.
  - rewrite getNumberOrDefault_other by done. by destruct (isNaN v).
Qed.

(** X1. [getNumberOrDefault] with a default that is a number never
    returns a value that [isNaN] accepts, and applying it to its own
    result changes nothing. *)
Theorem getNumberOrDefault_settles (v : JsVal) (d : Z) :
  isNaN (getNumberOrDefault v (Int d)) = false ∧
  getNumberOrDefault (getNumberOrDefault v (Int d)) (Int d)
  = getNumberOrDefault v (Int d).
Proof.
  destruct (is_string v) eqn:Hs.
  - destruct v as [| |?|?|t|?|?]; try done.
    rewrite getNumberOrDefault_string.
    split; [by destruct (parseInt t)|].
    rewrite getNumberOrDefault_number. by destruct (parseInt t).
  - rewrite (getNumberOrDefault_other v) by done.
    destruct (isNaN v) eqn:Hn; [done|]. split; [done|].
    by rewrite getNumberOrDefault_other, Hn.
Qed.

End CoercionFacts.

(** ** Numerals with white space before and text after *)







Section TolerantNumbers.
Context {B : Builtins}.


End TolerantNumbers.


(** ** Resolving twice *)

Section ResolveAgain.
Context {B : Builtins}.
Implicit Types (q : gmap string JsVal) (params : option (gmap string JsVal)).

Lemma getQuery_base_location q params fdv :
  q ≠ ∅ → getQuery_base q params fdv = q.
Proof. intros Hq%has_keys_spec. unfold getQuery_base. by rewrite Hq. Qed.

(** X3. When the query from the location has any key, the stored
    parameters and the default filters play no part in the result, and
    [filters] and [displayedFilters] are those of the location: a key the
    location does not have stays missing, the default filters are not put
    in. *)
Theorem getQuery_location_wins q params params' fdv fdv'
    (s : SortPayload) (pp : Num) :
  q ≠ ∅ →
  getQuery q params fdv s pp = getQuery q params' fdv' s pp ∧
  getQuery q params fdv s pp !! "filters" = q !! "filters" ∧
  getQuery q params fdv s pp !! "displayedFilters" = q !! "displayedFilters".
Proof.
  intros Hq. split; [|split].
  - unfold getQuery. by rewrite !getQuery_base_location.
  - rewrite getQuery_lookup_other, defaults_other by done.
    by rewrite getQuery_base_location.
  - rewrite getQuery_lookup_other, defaults_other by done.
    by rewrite getQuery_base_location.
Qed.

Lemma getQuery_perPage_not_nullish q params fdv (s : SortPayload) (pp : Num) :
  nullish (prop (getQuery q params fdv s pp) "perPage") = false.
Proof.
  rewrite (prop_lookup _ _ _ (getQuery_perPage q params fdv s pp)).
  apply getNumberOrDefault_not_nullish.
  by destruct (nullish (prop (getQuery_base q params fdv) "perPage")) eqn:E.
Qed.

Lemma getQuery_page_not_nullish q params fdv (s : SortPayload) (pp : Num) :
  nullish (prop (getQuery q params fdv s pp) "page") = false.
Proof.
  rewrite (prop_lookup _ _ _ (getQuery_page q params fdv s pp)).
  apply getNumberOrDefault_not_nullish.
  by destruct (nullish (prop (getQuery_base q params fdv) "page")) eqn:E.
Qed.

Lemma getNumberOrDefault_again (v : JsVal) (d : Num) :
  getNumberOrDefault (getNumberOrDefault v d) d = getNumberOrDefault v d.
Proof.
  destruct (is_string v) eqn:Hs.
  - destruct v as [| |?|?|t|?|?]; try done.
    rewrite getNumberOrDefault_string, getNumberOrDefault_number.
    destruct (parseInt t); [by destruct d | done].
  - rewrite (getNumberOrDefault_other v) by done.
    destruct (isNaN v) eqn:Hn.
    + rewrite getNumberOrDefault_number. by destruct d.
    + by rewrite getNumberOrDefault_other, Hn.
Qed.

(** The defaults and the coercion leave resolved parameters as they
    are. *)
Lemma getQuery_defaults_resolved q params fdv (s : SortPayload) (pp pp' : Num) :
  getQuery_defaults (getQuery q params fdv s pp) s pp'
  = getQuery q params fdv s pp.
Proof.
  set (R := getQuery q params fdv s pp).
  assert (R !! "sort" =
            if truthy (prop (getQuery_base q params fdv) "sort")
            then getQuery_base q params fdv !! "sort"
            else Some (VStr (field s))) as Hsort.
  { subst R. by rewrite getQuery_lookup_other, defaults_sort. }
  assert (R !! "order" =
            if truthy (prop (getQuery_base q params fdv) "sort")
            then getQuery_base q params fdv !! "order"
            else Some (VStr (order s))) as Horder.
  { subst R. by rewrite getQuery_lookup_other, defaults_order. }
  unfold getQuery_defaults.
  assert ((if negb (truthy (prop R "sort"))
           then <["order" := VStr (order s)]> (<["sort" := VStr (field s)]> R)
           else R) = R) as ->.
  { destruct (truthy (prop R "sort")) eqn:Ht; [done|]. cbn [negb].
    destruct (truthy (prop (getQuery_base q params fdv) "sort")) eqn:Hb.
    - unfold prop in Ht, Hb. rewrite Hsort in Ht. congruence.
    - rewrite (insert_id R "sort") by done. by rewrite insert_id. }
  subst R. by rewrite getQuery_perPage_not_nullish, getQuery_page_not_nullish.
Qed.

Lemma getQuery_finish_resolved q params fdv (s : SortPayload) (pp : Num) :
  let R := getQuery q params fdv s pp in
  <["perPage" := getNumberOrDefault (prop R "perPage") (Int 10)]>
    (<["page" := getNumberOrDefault (prop R "page") (Int 1)]> R) = R.
Proof.
  intros R.
  assert (R !! "page" = Some (getNumberOrDefault (prop R "page") (Int 1))) as Hp.
  { subst R. rewrite (prop_lookup _ _ _ (getQuery_page q params fdv s pp)).
    by rewrite getNumberOrDefault_again, getQuery_page. }
  assert (R !! "perPage" = Some (getNumberOrDefault (prop R "perPage") (Int 10))) as Hpp.
  { subst R. rewrite (prop_lookup _ _ _ (getQuery_perPage q params fdv s pp)).
    by rewrite getNumberOrDefault_again, getQuery_perPage. }
  rewrite (insert_id R "page") by done. by rewrite insert_id.
Qed.

Lemma getQuery_not_empty q params fdv (s : SortPayload) (pp : Num) :
  getQuery q params fdv s pp ≠ ∅.
Proof.
  intros E. pose proof (getQuery_page q params fdv s pp) as Hp.
  by rewrite E, lookup_empty in Hp.
Qed.

(** X4. Resolved parameters are a fixed point of [getQuery]: given back
    as the query of the location, with the same default sort, they come
    out unchanged, whatever the store, the default filters and the
    default perPage are then. *)
Theorem getQuery_idempotent q params params' fdv fdv'
    (s : SortPayload) (pp pp' : Num) :
  getQuery (getQuery q params fdv s pp) params' fdv' s pp'
  = getQuery q params fdv s pp.
Proof.
  unfold getQuery at 1.
  rewrite getQuery_base_location by apply getQuery_not_empty.
  rewrite getQuery_defaults_resolved. apply getQuery_finish_resolved.
Qed.

(** X5. Resolved parameters always count as custom, so once they are in
    the store they are what a later visit without a query string
    resolves to: [getQuery] on the empty query and the stored copy returns
    the copy, and the default filters are not applied again. *)
Theorem getQuery_restores_stored q params fdv fdv'
    (s : SortPayload) (pp pp' : Num) :
  let R := getQuery q params fdv s pp in
  hasCustomParams (Some R) = true ∧
  getQuery ∅ (Some R) fdv' s pp' = R.
Proof.
  intros R.
  assert (hasCustomParams (Some R) = true) as Hc.
  { unfold hasCustomParams. subst R. rewrite getQuery_perPage_not_nullish.
    apply orb_true_iff. left. apply orb_true_iff. right. reflexivity. }
  split; [done|].
  unfold getQuery at 1. unfold getQuery_base.
  rewrite has_keys_empty, Hc. change (spread (Some R)) with R. subst R.
  rewrite getQuery_defaults_resolved. apply getQuery_finish_resolved.
Qed.

End ResolveAgain.

Lemma getQuery_location_wins_witness :
  getQuery (B := MiniJSON.builtins) {["page" := VStr "2"]}
    (Some (<["page" := VNum (Int 7)]> neutral))
    (VArr [filterItem "published" (VBool true)])
    {| field := "id"; order := "ASC" |} (Int 10) !! "filters" = None.
Proof.
  refine (proj1 (proj2
    (getQuery_location_wins (B := MiniJSON.builtins) {["page" := VStr "2"]}
       (Some (<["page" := VNum (Int 7)]> neutral)) None
       (VArr [filterItem "published" (VBool true)]) VUndefined
       {| field := "id"; order := "ASC" |} (Int 10) _))).
  intros E. by apply (f_equal (fun m => m !! "page")) in E.
Defined.

(** ** What [parseQueryFromLocation] keeps *)

Section KeepFacts.
Context {B : Builtins}.
Implicit Types (parsed : gmap string JsVal).

Lemma parseQueryFromLocation_other parsed k :
  k ≠ "filters" → k ≠ "displayedFilters" → k ≠ "filter" →
  parseQueryFromLocation parsed !! k =
    if bool_decide (k ∈ validQueryParams) then parsed !! k else None.
Proof.
  intros ? ? ?. rewrite <- parsed_objects_other by done.
  rewrite parseQueryFromLocation_unfold. cbv zeta.
  destruct (_ && _); [|done]. rewrite lookup_delete_ne by done.
  destruct (prop _ "filter") as [| |?|?|f|?|?]; try done.
  destruct (JSON_parse f) as [o|]; [|done].
  destruct (toFilterItems o); [|done]. by rewrite lookup_insert_ne.
Qed.

(** X6. [parseQueryFromLocation] drops every key that is not a recognised
    parameter, and hands [page], [perPage], [sort] and [order] on exactly
    as the location has them: strings stay strings, a missing key stays
    missing. *)
Theorem parseQueryFromLocation_frame parsed :
  let R := parseQueryFromLocation parsed in
  (∀ k, k ∉ validQueryParams → R !! k = None) ∧
  R !! "page" = parsed !! "page" ∧
  R !! "perPage" = parsed !! "perPage" ∧
  R !! "sort" = parsed !! "sort" ∧
  R !! "order" = parsed !! "order".
Proof.
  intros R. subst R. split.
  - intros k Hk.
    assert (k ≠ "filters" ∧ k ≠ "displayedFilters" ∧ k ≠ "filter")
      as (? & ? & ?).
    { repeat split; intros ->; apply Hk; by apply (bool_decide_unpack _). }
    rewrite parseQueryFromLocation_other by done.
    by rewrite bool_decide_eq_false_2.
  - by rewrite !parseQueryFromLocation_other.
Qed.

(** X7. A [displayedFilters] text that is JSON is replaced by its value.
    A [filters] text that is JSON with a truthy value is replaced by its
    value, and so is kept a [filters] that is no string but truthy; the
    legacy [filter] is then neither read nor removed. *)
Theorem parseQueryFromLocation_filters_first parsed :
  let R := parseQueryFromLocation parsed in
  (∀ s v, parsed !! "displayedFilters" = Some (VStr s) →
          JSON_parse s = Some v → R !! "displayedFilters" = Some v) ∧
  (∀ s v, parsed !! "filters" = Some (VStr s) → JSON_parse s = Some v →
          truthy v = true →
          R !! "filters" = Some v ∧ R !! "filter" = parsed !! "filter") ∧
  (∀ v, parsed !! "filters" = Some v → is_string v = false →
        truthy v = true →
        R !! "filters" = Some v ∧ R !! "filter" = parsed !! "filter").
Proof.
  intros R. subst R. split; [|split].
  - intros s v E Hp.
    rewrite legacy_keeps_displayedFilters, parsed_objects_displayedFilters, E.
    pose proof (JSON_parse_nonempty _ _ Hp).
    by destruct (String.eqb_spec s "").
  - intros s v E Hp Hv.
    assert (parsed_objects parsed !! "filters" = Some v) as Hfs.
    { rewrite parsed_objects_filters, E.
      pose proof (JSON_parse_nonempty _ _ Hp).
      by destruct (String.eqb_spec s ""). }
    rewrite legacy_skipped by (by rewrite (prop_lookup _ _ _ Hfs)).
    split; [done|]. by rewrite parsed_objects_other.
  - intros v E Hs Hv.
    assert (parsed_objects parsed !! "filters" = Some v) as Hfs.
    { rewrite parsed_objects_filters, E. by destruct v. }
    rewrite legacy_skipped by (by rewrite (prop_lookup _ _ _ Hfs)).
    split; [done|]. by rewrite parsed_objects_other.
Qed.

End KeepFacts.

Lemma parseQueryFromLocation_frame_witness :
  parseQueryFromLocation (B := MiniJSON.builtins)
    (<["utm" := VStr "x"]> {["page" := VStr "2"]}) !! "utm" = None.
Proof.
  refine (proj1 (parseQueryFromLocation_frame (B := MiniJSON.builtins)
                   (<["utm" := VStr "x"]> {["page" := VStr "2"]})) "utm" _).
  apply (bool_decide_unpack _). by vm_compute.
Defined.

Lemma parseQueryFromLocation_filters_first_witness :
  let R :=
    parseQueryFromLocation (B := MiniJSON.builtins)
      (<["filters" := VStr "[1]"]> {["filter" := VStr "{}"]}) in
  R !! "filters" = Some (VArr [VNum (Int 1)])
  ∧ R !! "filter" = Some (VStr "{}").
Proof.
  refine (proj1 (proj2 (parseQueryFromLocation_filters_first
                          (B := MiniJSON.builtins)
                          (<["filters" := VStr "[1]"]> {["filter" := VStr "{}"]})))
            "[1]" (VArr [VNum (Int 1)]) _ _ _); by vm_compute.
Defined.

(** ** A legacy [filter] that is JSON but no object *)

Lemma to_uint_not_Nil (n : nat) : Nat.to_uint n ≠ Decimal.Nil.
Proof.
  intros E. pose proof (DecimalNat.Unsigned.of_to n) as Hn.
  rewrite E in Hn. simpl in Hn. subst n. discriminate E.
Qed.

Lemma index_key_inj (i j : nat) : index_key i = index_key j → i = j.
Proof.
  unfold index_key. intros E.
  apply (f_equal NilZero.uint_of_string) in E.
  rewrite !NilZero.usu in E by apply to_uint_not_Nil.
  injection E as E. by apply DecimalNat.Unsigned.to_uint_inj.
Qed.

Lemma find_seq_only (f : nat → bool) (a n i : nat) :
  (a ≤ i < a + n)%nat → f i = true → (∀ j, f j = true → j = i) →
  List.find f (seq a n) = Some i.
Proof.
  revert a. induction n as [|n IH]; intros a Hi Hf Hu; [lia|].
  simpl. destruct (f a) eqn:Ha.
  - by rewrite (Hu a Ha).
  - apply IH; [|done..].
    assert (a ≠ i) by (intros ->; congruence). lia.
Qed.

Lemma key_index_index_key (n i : nat) :
  (i < n)%nat → key_index n (index_key i) = Some i.
Proof.
  intros Hi. unfold key_index. apply find_seq_only; [lia| |].
  - apply String.eqb_refl.
  - intros j Hj%String.eqb_eq. symmetry. by apply index_key_inj.
Qed.

Lemma map_fmap {A C : Type} (f : A → C) (l : list A) : map f l = f <$> l.
Proof. induction l as [|x l IH]; [done|]. simpl. by rewrite IH. Qed.

Lemma toFilterItems_array (l : list JsVal) :
  toFilterItems (VArr l) =
    Some (VArr (imap (fun i v => filterItem (index_key i) v) l)).
Proof.
  unfold toFilterItems. simpl. do 2 f_equal. apply list_eq. intros i.
  unfold indices. rewrite list_lookup_imap.
  rewrite !map_fmap, !list_lookup_fmap.
  destruct (decide (i < List.length l)%nat) as [Hi|Hi].
  - rewrite lookup_seq_lt by done. simpl.
    rewrite key_index_index_key by done.
    destruct (lookup_lt_is_Some_2 l i Hi) as [v Hv]. rewrite Hv. simpl.
    by rewrite (nth_lookup_Some _ _ _ _ Hv).
  - rewrite (lookup_ge_None_2 l) by lia.
    by rewrite (lookup_ge_None_2 (seq 0 _)) by (rewrite length_seq; lia).
Qed.

Section LegacyShapes.
Context {B : Builtins}.

(** X8. When [filter] is the only key that carries filters and its text
    is JSON but no object: [null] gives no filters at all (the failure of
    [Object.keys] is swallowed), a number or a boolean gives the empty
    list, and an array gives one item per element, its field the index of
    the element. In every case [filter] is removed. *)
Theorem legacy_filter_not_an_object (parsed : gmap string JsVal) (s : string)
    (v : JsVal) :
  parsed !! "filters" = None →
  parsed !! "filter" = Some (VStr s) →
  JSON_parse s = Some v →
  let R := parseQueryFromLocation parsed in
  R !! "filter" = None ∧
  (v = VNull → R !! "filters" = None) ∧
  ((∃ b, v = VBool b) ∨ (∃ n, v = VNum n) → R !! "filters" = Some (VArr [])) ∧
  (∀ l, v = VArr l →
     R !! "filters" =
       Some (VArr (imap (fun i x =>
                           VObj [("field", VStr (index_key i));
                                 ("operator", VStr "="); ("value", x)])
                     l))).
Proof.
  intros Hfs Hf Hs R.
  assert (parsed_objects parsed !! "filters" = None) as Hn
    by (by rewrite parsed_objects_filters, Hfs).
  assert (R = delete "filter"
                match toFilterItems v with
                | Some items => <["filters" := items]> (parsed_objects parsed)
                | None => parsed_objects parsed
                end) as ->.
  { subst R. rewrite (legacy_taken parsed s), Hs; [done| |done|].
    - by rewrite (prop_missing _ _ Hn).
    - by eapply JSON_parse_nonempty. }
  split; [by rewrite lookup_delete_eq|].
  rewrite lookup_delete_ne by done. split; [|split].
  - by intros ->.
  - intros [[b ->]|[n ->]]; simpl; by rewrite lookup_insert_eq.
  - intros l ->. rewrite toFilterItems_array. by rewrite lookup_insert_eq.
Qed.

End LegacyShapes.

Lemma legacy_filter_not_an_object_witness :
  parseQueryFromLocation (B := MiniJSON.builtins)
    {["filter" := VStr "[true,7]"]} !! "filters"
  = Some (VArr [VObj [("field", VStr "0"); ("operator", VStr "=");
                      ("value", VBool true)];
                VObj [("field", VStr "1"); ("operator", VStr "=");
                      ("value", VNum (Int 7))]]).
Proof.
  refine (proj2 (proj2 (proj2
    (legacy_filter_not_an_object (B := MiniJSON.builtins)
       {["filter" := VStr "[true,7]"]} "[true,7]"
       (VArr [VBool true; VNum (Int 7)]) _ _ _)))
    [VBool true; VNum (Int 7)] _); by vm_compute.
Defined.

(** ** Runs of the batcher *)

Section RunFacts.
Context {B : Builtins} {Rd : Reducer}.
Implicit Types (b : Batcher) (e : Event) (es : list Effect).

Lemma step_balanced (disableSync : bool) b e :
  balanced b →
  balanced (step disableSync b e) ∧
  ∃ added,
    effects (step disableSync b e) = (effects b ++ added)%list ∧
    Forall (fun x => commits disableSync x = true) added ∧
    (List.length added ≤ match e with Timeout => 1 | Call _ _ => 0 end)%nat.
Proof.
  intros [[Ht Hts]|(p & a & Ht & Hts)]; destruct e as [query action|]; simpl.
  - unfold changeParams. rewrite Ht, Hts. split.
    + right. by exists (queryReducer query action), action.
    + exists []. rewrite app_nil_r.
      split; [done|]. split; [constructor | simpl; lia].
  - unfold run_timers. rewrite Ht, Hts. split.
    + by left.
    + exists []. rewrite app_nil_r.
      split; [done|]. split; [constructor | simpl; lia].
  - unfold changeParams. rewrite Ht, Hts. split.
    + right. by exists (queryReducer p action), a.
    + exists []. rewrite app_nil_r.
      split; [done|]. split; [constructor | simpl; lia].
  - unfold run_timers, flush. rewrite Ht, Hts. simpl.
    destruct disableSync; simpl; (split; [by left|]);
      eexists [_]; repeat split; try done; by repeat constructor.
Qed.

Lemma run_balanced_from (disableSync : bool) (events : list Event) b :
  balanced b →
  balanced (run disableSync events b) ∧
  ∃ added,
    effects (run disableSync events b) = (effects b ++ added)%list ∧
    Forall (fun x => commits disableSync x = true) added ∧
    (List.length added
     ≤ List.length (List.filter (fun e => match e with Timeout => true | _ => false end)
                 events))%nat.
Proof.
  revert b. induction events as [|e events IH]; intros b Hb.
  - split; [done|]. exists []. rewrite app_nil_r.
    split; [done|]. split; [constructor | simpl; lia].
  - destruct (step_balanced disableSync b e Hb) as (Hb' & added & He & Hc & Hl).
    destruct (IH _ Hb') as (Hb'' & added' & He' & Hc' & Hl').
    split; [exact Hb''|]. exists (added ++ added')%list.
    change (run disableSync (e :: events) b)
      with (run disableSync events (step disableSync b e)).
    rewrite He', He, <- app_assoc. split; [done|]. split.
    + by apply Forall_app.
    + rewrite length_app. destruct e; simpl in *; lia.
Qed.

(** X11. Whatever calls of [changeParams] and timer rounds follow one
    another from the idle state, the batcher stays balanced (nothing
    pending, or one batch and its one timer), every effect it adds commits
    parameters the way the mode asks for (never [setLocalParams(undefined)],
    never a callback that throws, never a navigation when the location is
    not in sync), and it adds at most one effect per timer round. *)
Theorem run_keeps_balance (disableSync : bool) (events : list Event) es :
  let b := run disableSync events (idle es) in
  balanced b ∧
  ∃ added,
    effects b = (es ++ added)%list ∧
    Forall (fun x => commits disableSync x = true) added ∧
    (List.length added
     ≤ List.length (List.filter (fun e => match e with Timeout => true | _ => false end)
                 events))%nat.
Proof.
  intros b. subst b.
  apply (run_balanced_from disableSync events (idle es)). by left.
Qed.

Lemma run_calls_accumulating (disableSync : bool)
    (calls : list (gmap string JsVal * Action)) p (ts : list Action) es :
  run disableSync (map (fun c => Call c.1 c.2) calls)
    {| tempParams := Some p; timers := ts; effects := es |}
  = {| tempParams := Some (foldl queryReducer p (map snd calls));
       timers := ts; effects := es |}.
Proof.
  revert p. induction calls as [|[q a] calls IH]; intros p; [done|].
  unfold run in *. simpl. apply IH.
Qed.

Lemma run_app (disableSync : bool) (e1 e2 : list Event) b :
  run disableSync (e1 ++ e2) b = run disableSync e2 (run disableSync e1 b).
Proof. unfold run. apply foldl_app. Qed.

Lemma run_first_call (disableSync : bool) q a (events : list Event) es :
  run disableSync (Call q a :: events) (idle es)
  = run disableSync events
      {| tempParams := Some (queryReducer q a); timers := [a]; effects := es |}.
Proof. reflexivity. Qed.

Lemma run_timeout_pending (disableSync : bool) p a es :
  run disableSync [Timeout]
    {| tempParams := Some p; timers := [a]; effects := es |}
  = idle (es ++ [if disableSync then SetLocalParams (Some p)
                 else Navigate (searchParams p)
                        (String.eqb (type a) SET_PAGE)]).
Proof. by destruct disableSync. Qed.

Lemma run_batch (disableSync : bool)
    (calls : list (gmap string JsVal * Action)) es :
  run disableSync (batch_events calls) (idle es)
  = idle (es ++ match batch_effect disableSync calls with
                | Some e => [e]
                | None => []
                end).
Proof.
  unfold batch_events. destruct calls as [|[q a] rest].
  - simpl. unfold run, run_timers, idle. simpl. by rewrite app_nil_r.
  - cbn [map fst snd app]. rewrite run_first_call, run_app.
    rewrite run_calls_accumulating, run_timeout_pending.
    unfold batch_effect. simpl. by destruct disableSync.
Qed.

(** X12. Batches in a row: each batch is the calls of one synchronous
    run, possibly from different renders, followed by the timers. Every
    batch with a call ends in exactly one effect, in the order of the
    batches, and a batch without calls in none; the parameters committed
    are the reducer folded over the actions from the query of the first
    call of the batch, the queries of its later calls playing no part. *)
Theorem run_batches (disableSync : bool)
    (batches : list (list (gmap string JsVal * Action))) es :
  run disableSync (concat (map batch_events batches)) (idle es)
  = idle (es ++ omap (batch_effect disableSync) batches).
Proof.
  revert es. induction batches as [|calls batches IH]; intros es.
  - simpl. by rewrite app_nil_r.
  - cbn [map concat]. rewrite run_app, run_batch, IH. f_equal.
    rewrite <- app_assoc. f_equal. simpl.
    by destruct (batch_effect disableSync calls).
Qed.

End RunFacts.

(** ** The default filters of the hook, and what it returns *)

Section HookFacts.
Context {B : Builtins}.

(** X9. With nothing in the location (or the location not in sync) and
    stored parameters that are not custom, the hook resolves [filters] to
    its default filter values: a list is taken as it is, an object gives
    one item [{ field, operator: "=", value }] per key, and a missing or
    falsy value gives the empty list. *)
Theorem useListParams_default_filters (o : ListParamsOptions)
    (parsed : gmap string JsVal) (stored : option (gmap string JsVal)) :
  disableSyncWithLocation o = true ∨ parseQueryFromLocation parsed = ∅ →
  hasCustomParams stored = false →
  let R := useListParams_query o parsed stored in
  (∀ l, opt_filterDefaultValues o = VArr l → R !! "filters" = Some (VArr l)) ∧
  (∀ kvs, opt_filterDefaultValues o = VObj kvs →
     R !! "filters" =
       Some (VArr (map (fun name =>
                          VObj [("field", VStr name); ("operator", VStr "=");
                                ("value", assoc name kvs)])
                     (map fst kvs)))) ∧
  (truthy (opt_filterDefaultValues o) = false →
     R !! "filters" = Some (VArr [])).
Proof.
  intros Hq Hc R.
  assert (∀ fdv,
            (if disableSyncWithLocation o then ∅
             else parseQueryFromLocation parsed) = ∅ →
            getQuery
              (if disableSyncWithLocation o then ∅
               else parseQueryFromLocation parsed)
              stored fdv (opt_sort o) (opt_perPage o) !! "filters"
            = Some (if truthy fdv then fdv else VArr [])) as Hfilters.
  { intros fdv ->. rewrite getQuery_lookup_other, defaults_other by done.
    unfold getQuery_base. rewrite has_keys_empty, Hc.
    by rewrite lookup_singleton_eq. }
  assert ((if disableSyncWithLocation o then ∅
           else parseQueryFromLocation parsed) = ∅) as He.
  { destruct Hq as [->| ->]; [done|]. by destruct (disableSyncWithLocation o). }
  subst R. unfold useListParams_query. cbv zeta.
  rewrite (Hfilters _ He). split; [|split].
  - intros l ->. reflexivity.
  - intros kvs ->. reflexivity.
  - intros Hf. rewrite Hf. cbv iota. by rewrite Hf.
Qed.

(** X10. The parameters the hook returns hold every property of the
    query unchanged, a falsy one included: [displayedFilters] is the empty
    object only when the query has no such key, and [filterValues] is the
    query's [filters], or the empty list when they are missing or
    falsy. *)
Theorem useListParams_parameters_lookup (requestSignature : JsVal)
    (query : gmap string JsVal) :
  let P := useListParams_parameters requestSignature query in
  (∀ k v, query !! k = Some v → P !! k = Some v) ∧
  (query !! "displayedFilters" = None →
     P !! "displayedFilters" = Some (VObj [])) ∧
  (query !! "filterValues" = None →
     (∀ v, query !! "filters" = Some v → truthy v = true →
           P !! "filterValues" = Some v) ∧
     (truthy (prop query "filters") = false →
        P !! "filterValues" = Some (VArr []))) ∧
  (query !! "requestSignature" = None →
     P !! "requestSignature" = Some requestSignature).
Proof.
  intros P. subst P. unfold useListParams_parameters. cbv zeta.
  split; [|split; [|split]].
  - intros k v E. by rewrite (lookup_union_Some_l _ _ _ _ E).
  - intros E. rewrite lookup_union_r by done.
    rewrite lookup_insert_eq. by rewrite (prop_missing _ _ E).
  - intros E. split.
    + intros v Ev Hv. rewrite lookup_union_r by done.
      rewrite lookup_insert_ne, lookup_insert_eq by done.
      by rewrite (prop_lookup _ _ _ Ev), Hv.
    + intros Hv. rewrite lookup_union_r by done.
      rewrite lookup_insert_ne, lookup_insert_eq by done. by rewrite Hv.
  - intros E. rewrite lookup_union_r by done.
    rewrite lookup_insert_ne by done. rewrite lookup_insert_ne by done.
    by rewrite lookup_insert_eq.
Qed.

End HookFacts.

Lemma useListParams_default_filters_witness :
  useListParams_query (B := MiniJSON.builtins)
    {| opt_filterDefaultValues := VObj [("published", VBool true)];
       opt_sort := {| field := "id"; order := "ASC" |};
       opt_perPage := Int 10; disableSyncWithLocation := false |}
    {["utm" := VStr "x"]} (Some neutral) !! "filters"
  = Some (VArr [VObj [("field", VStr "published"); ("operator", VStr "=");
                      ("value", VBool true)]]).
Proof.
  refine (proj1 (proj2
    (useListParams_default_filters (B := MiniJSON.builtins)
       {| opt_filterDefaultValues := VObj [("published", VBool true)];
          opt_sort := {| field := "id"; order := "ASC" |};
          opt_perPage := Int 10; disableSyncWithLocation := false |}
       {["utm" := VStr "x"]} (Some neutral) _ _))
    [("published", VBool true)] _).
  - right. by vm_compute.
  - by vm_compute.
  - reflexivity.
Defined.

Lemma useListParams_parameters_lookup_witness :
  useListParams_parameters (VArr []) {["displayedFilters" := VNull]}
    !! "displayedFilters" = Some VNull.
Proof.
  refine (proj1 (useListParams_parameters_lookup (VArr [])
                   {["displayedFilters" := VNull]})
            "displayedFilters" VNull _).
  reflexivity.
Defined.
